(** * Infographic text fixer: region selection, undo history and compositing

    A shallow embedding of [src/index.tsx].  The React component [App] keeps
    its state in [useState] cells and two [useRef] cells; every handler is a
    function of that state.  Here the state is one record, [App], and every
    handler is a function from [App] to [App] together with the notices and
    external calls it issues.

    Region objects ([SelectionArea]) are JavaScript objects: [onMouseMove]
    assigns to the fields of the last one in place and [undo]/[redo] hand the
    array kept in a history entry to the live state.  Regions therefore live
    in an object store and arrays hold references into it.  Arrays and the
    [replacements] objects are never assigned to after they are built (the
    code always spreads, filters or slices into a new one), so they are
    values: a list of references and a finite map.

    Numbers: coordinates are JavaScript numbers.  The model takes them
    integer valued ([Z]); [Math.min], [Math.abs] and subtraction are exact on
    integers below 2^53.  The scale factors of the compositor are quotients
    and are kept as rationals. *)

From stdpp Require Import base numbers list gmap.
From Stdlib Require Import QArith Qround.

Local Open Scope Z_scope.

(** ** JavaScript strings *)

Module JS.

(** A string is a sequence of UTF-16 code units. *)
Abbreviation str := (list N).

(** [WhiteSpace] and [LineTerminator] of ECMAScript, the code units that
    [String.prototype.trim] strips. *)
Definition is_ws (c : N) : bool :=
  ((9 <=? c) && (c <=? 13)        (* TAB, LF, VT, FF, CR *)
   || (c =? 32)                   (* SPACE *)
   || (c =? 160)                  (* NBSP *)
   || (c =? 5760)                 (* U+1680 *)
   || ((8192 <=? c) && (c <=? 8202))   (* U+2000 .. U+200A *)
   || (c =? 8232) || (c =? 8233)  (* LS, PS *)
   || (c =? 8239) || (c =? 8287)  (* U+202F, U+205F *)
   || (c =? 12288)                (* U+3000 *)
   || (c =? 65279))%N.            (* BOM *)

Fixpoint trimStart (s : str) : str :=
  match s with
  | c :: s' => if is_ws c then trimStart s' else s
  | [] => []
  end.

Definition trimEnd (s : str) : str := reverse (trimStart (reverse s)).

Definition trim (s : str) : str := trimEnd (trimStart s).

(** [a[i]] for an index that is a JavaScript number: [undefined] when the
    index is negative or past the end. *)
Definition index {A} (a : list A) (i : Z) : option A :=
  if decide (0 <= i) then a !! Z.to_nat i else None.

(** [a.slice(0, e)]: a negative end counts from the end of the array. *)
Definition slice0 {A} (a : list A) (e : Z) : list A :=
  if decide (e < 0) then take (Z.to_nat (Z.of_nat (length a) + e)) a
  else take (Z.to_nat e) a.

(** [Math.round] of a rational: halves go up. *)
Definition round (q : Q) : Z := Qfloor (Qplus q (1 # 2)).

End JS.

(** ** Data model *)

Definition MAX_CHAR_LIMIT : nat := 300.
Definition MAX_SELECTIONS : nat := 10.
Definition HISTORY_CAPACITY : nat := 50.

(** [interface SelectionArea] *)
Record SelectionArea := mkArea {
  sel_id : Z;
  sel_x : Z;
  sel_y : Z;
  sel_w : Z;
  sel_h : Z
}.

Global Instance SelectionArea_eq_dec : EqDecision SelectionArea.
Proof. solve_decision. Defined.

(** A reference to a region object, and the object store. *)
Abbreviation ref := nat.
Abbreviation Store := (list SelectionArea).

(** [{ [key: number]: string }] *)
Abbreviation Replacements := (gmap Z JS.str).

(** [interface HistoryState]: the array of region references and the
    replacement texts of one snapshot. *)
Record HistoryState := mkHist {
  hs_selections : list ref;
  hs_replacements : Replacements
}.

(** A decoded raster.  Only the pixels with [0 <= i < bm_width] and
    [0 <= j < bm_height] belong to it. *)
Definition pixel : Type := Z.

Record Bitmap := mkBitmap {
  bm_width : Z;
  bm_height : Z;
  bm_px : Z -> Z -> pixel
}.



(** The three texts passed to [alert]. *)
Inductive Notice :=
| NoticeMaxSelections     (* onMouseDown, region limit *)
| NoticeEmptyInstruction  (* handleRestore, no text to correct *)
| NoticeRestoreFailed.    (* handleRestore, catch *)

(** One line of [areasInstructions]. *)
Record AreaInstruction := mkInstr {
  ai_number : nat;
  ai_normX : Z;
  ai_normY : Z;
  ai_normW : Z;
  ai_normH : Z;
  ai_text : JS.str
}.

Inductive TargetSize := Size1K | Size2K | Size4K.

(** The argument of [ai.models.generateContent]: the source image, the
    instruction lines the prompt ends with, and the image configuration. *)
Record Request := mkRequest {
  rq_image : Bitmap;
  rq_areas : list AreaInstruction;
  rq_size : TargetSize;
  rq_wide : bool       (* aspectRatio "16:9" rather than "4:3" *)
}.

(** A part of the first candidate of the response: [inlineData] is present
    or not, and its [data] may be missing. *)
Inductive Part :=
| TextPart (t : JS.str)
| InlinePart (data : option JS.str).

(** What the awaited call comes back with: a rejection, or the parts of the
    first candidate ([response.candidates?.[0]?.content?.parts || []]). *)
Inductive ModelReply :=
| CallRejected
| Response (parts : list Part).

Inductive Effect :=
| Alert (n : Notice)
| GenerateContent (rq : Request).

(** What [handleRestore] keeps in its closure across the awaited call. *)
Record Pending := mkPending {
  pd_image : Bitmap;
  pd_filtered : list ref
}.

(** The state of [App].  The key, PDF and progress-text cells play no part
    in the handlers below and are left out.  [isDrawing] and [startPos] are
    the two refs; [store] holds the region objects; [pending] is the
    suspended [handleRestore], if one is awaiting the model. *)
Record App := mkApp {
  image : option Bitmap;
  isProcessing : bool;
  selections : list ref;
  replacements : Replacements;
  resultImage : option Bitmap;
  history : list HistoryState;
  historyIndex : Z;
  isDrawing : bool;
  startPos : Z * Z;
  store : Store;
  pending : option Pending
}.

Definition initialApp : App :=
  {| image := None; isProcessing := false; selections := [];
     replacements := ∅; resultImage := None; history := [];
     historyIndex := -1; isDrawing := false; startPos := (0, 0);
     store := []; pending := None |}.

Section Setters.
Variable s : App.

Definition setSelections (v : list ref) : App :=
  mkApp (image s) (isProcessing s) v (replacements s) (resultImage s)
    (history s) (historyIndex s) (isDrawing s) (startPos s) (store s) (pending s).
Definition setReplacements (v : Replacements) : App :=
  mkApp (image s) (isProcessing s) (selections s) v (resultImage s)
    (history s) (historyIndex s) (isDrawing s) (startPos s) (store s) (pending s).
Definition setHistory (v : list HistoryState) : App :=
  mkApp (image s) (isProcessing s) (selections s) (replacements s) (resultImage s)
    v (historyIndex s) (isDrawing s) (startPos s) (store s) (pending s).
Definition setHistoryIndex (v : Z) : App :=
  mkApp (image s) (isProcessing s) (selections s) (replacements s) (resultImage s)
    (history s) v (isDrawing s) (startPos s) (store s) (pending s).
Definition setIsDrawing (v : bool) : App :=
  mkApp (image s) (isProcessing s) (selections s) (replacements s) (resultImage s)
    (history s) (historyIndex s) v (startPos s) (store s) (pending s).
Definition setStartPos (v : Z * Z) : App :=
  mkApp (image s) (isProcessing s) (selections s) (replacements s) (resultImage s)
    (history s) (historyIndex s) (isDrawing s) v (store s) (pending s).
Definition setStore (v : Store) : App :=
  mkApp (image s) (isProcessing s) (selections s) (replacements s) (resultImage s)
    (history s) (historyIndex s) (isDrawing s) (startPos s) v (pending s).
Definition setImage (v : option Bitmap) : App :=
  mkApp v (isProcessing s) (selections s) (replacements s) (resultImage s)
    (history s) (historyIndex s) (isDrawing s) (startPos s) (store s) (pending s).
Definition setResultImage (v : option Bitmap) : App :=
  mkApp (image s) (isProcessing s) (selections s) (replacements s) v
    (history s) (historyIndex s) (isDrawing s) (startPos s) (store s) (pending s).
Definition setIsProcessing (v : bool) : App :=
  mkApp (image s) v (selections s) (replacements s) (resultImage s)
    (history s) (historyIndex s) (isDrawing s) (startPos s) (store s) (pending s).
Definition setPending (v : option Pending) : App :=
  mkApp (image s) (isProcessing s) (selections s) (replacements s) (resultImage s)
    (history s) (historyIndex s) (isDrawing s) (startPos s) (store s) v.
End Setters.

(** ** The object store *)

(** The regions an array of references denotes: what a deep comparison, or
    [JSON.stringify], sees. *)
Definition deref (st : Store) (a : list ref) : list SelectionArea :=
  omap (fun l => st !! l) a.

(** [JSON.parse(JSON.stringify(a))]: one new object per element, each a copy
    of the element's current fields. *)
Definition deepCopy (st : Store) (a : list ref) : Store * list ref :=
  let vals := deref st a in
  (st ++ vals, seq (length st) (length vals)).

(** The content of a snapshot, and of the live state, under deep equality. *)
Definition Content : Type := list SelectionArea * Replacements.

Definition snapshotContent (st : Store) (h : HistoryState) : Content :=
  (deref st (hs_selections h), hs_replacements h).

Definition liveContent (s : App) : Content :=
  (deref (store s) (selections s), replacements s).

Definition logContent (s : App) : list Content :=
  snapshotContent (store s) <$> history s.

(** ** HistoryLog: [pushToHistory], [undo], [redo] *)

Definition pushToHistory (s : App) (newSelections : list ref)
    (newReplacements : Replacements) : App :=
  let '(st', copies) := deepCopy (store s) newSelections in
  let newState := mkHist copies newReplacements in
  let truncated := JS.slice0 (history s) (historyIndex s + 1) in
  let updated := truncated ++ [newState] in
  let history' :=
    if decide (HISTORY_CAPACITY < length updated)%nat then drop 1 updated else updated in
  setHistoryIndex
    (setHistory (setStore s st') history')
    (Z.min (historyIndex s + 1) 49).

(** Reading a field of [undefined] throws; the handler then stops before any
    setter has run and the state is as it was. *)
Definition undo (s : App) : App :=
  if decide (0 < historyIndex s) then
    match JS.index (history s) (historyIndex s - 1) with
    | Some prevState =>
        setHistoryIndex
          (setReplacements (setSelections s (hs_selections prevState))
             (hs_replacements prevState))
          (historyIndex s - 1)
    | None => s
    end
  else if decide (historyIndex s = 0) then
    setHistoryIndex (setReplacements (setSelections s []) ∅) (-1)
  else s.

Definition redo (s : App) : App :=
  if decide (historyIndex s < Z.of_nat (length (history s)) - 1) then
    match JS.index (history s) (historyIndex s + 1) with
    | Some nextState =>
        setHistoryIndex
          (setReplacements (setSelections s (hs_selections nextState))
             (hs_replacements nextState))
          (historyIndex s + 1)
    | None => s
    end
  else s.

(** The [disabled] attributes of the two buttons. *)
Definition undoDisabled (s : App) : bool := bool_decide (historyIndex s < 0).
Definition redoDisabled (s : App) : bool :=
  bool_decide (Z.of_nat (length (history s)) - 1 <= historyIndex s).

(** ** SelectionStore: the pointer and text handlers *)

Definition onMouseDown (s : App) (now : Z) (pos : Z * Z) : App * list Effect :=
  if isProcessing s then (s, [])
  else if decide (MAX_SELECTIONS <= length (selections s))%nat then
    (s, [Alert NoticeMaxSelections])
  else
    let s1 := setStartPos (setIsDrawing s true) pos in
    let newRef := length (store s1) in
    let s2 := setStore s1 (store s1 ++ [mkArea now pos.1 pos.2 0 0]) in
    (setSelections s2 (selections s2 ++ [newRef]), []).

Definition onMouseMove (s : App) (currentPos : Z * Z) : App :=
  if isDrawing s then
    match last (selections s) with
    | Some l =>
        match store s !! l with
        | Some obj =>
            let sp := startPos s in
            setStore s
              (<[l := mkArea (sel_id obj)
                        (Z.min sp.1 currentPos.1) (Z.min sp.2 currentPos.2)
                        (Z.abs (currentPos.1 - sp.1)) (Z.abs (currentPos.2 - sp.2))]>
                 (store s))
        | None => s
        end
    | None => s
    end
  else s.

Definition onMouseUp (s : App) : App :=
  if isDrawing s then
    pushToHistory (setIsDrawing s false) (selections s) (replacements s)
  else s.

Definition updateReplacement (s : App) (id : Z) (text : JS.str) : App :=
  if decide (MAX_CHAR_LIMIT < length text)%nat then s
  else setReplacements s (<[id := text]> (replacements s)).

Definition handleReplacementBlur (s : App) (id : Z) : App :=
  match JS.index (history s) (historyIndex s) with
  | Some lastHistoryState =>
      if decide (hs_replacements lastHistoryState !! id <> replacements s !! id)
      then pushToHistory s (selections s) (replacements s)
      else s
  | None => pushToHistory s (selections s) (replacements s)
  end.

Definition idDiffers (st : Store) (id : Z) (l : ref) : Prop :=
  match st !! l with
  | Some obj => sel_id obj <> id
  | None => False
  end.

Global Instance idDiffers_dec st id l : Decision (idDiffers st id l).
Proof. unfold idDiffers. destruct (st !! l); apply _. Defined.

Definition removeSelection (s : App) (id : Z) : App :=
  let newSelections := filter (idDiffers (store s) id) (selections s) in
  let newReplacements := delete id (replacements s) in
  pushToHistory (setReplacements (setSelections s newSelections) newReplacements)
    newSelections newReplacements.

(** [handleImageUpload]'s [reader.onload] and the end of [renderPdfPage]. *)
Definition loadImage (s : App) (img : Bitmap) : App :=
  setHistoryIndex
    (setHistory
       (setReplacements (setSelections (setResultImage (setImage s (Some img)) None) [])
          ∅) [])
    (-1).

(** ** Compositor and RestoreOrchestrator: [handleRestore]

    [handleRestore] draws on a canvas and awaits the generative model and the
    browser's image decoder.  What the browser supplies is taken as a
    parameter: the colour a source pixel leaves on a backdrop ([over]), the
    colour [drawImage] samples from the scaled source rectangle for a
    destination pixel ([resample]), and the decoding of the returned base64
    payload ([decodeImage], [None] when the image never loads).  Which
    pixels a [drawImage] call writes is fixed by the canvas standard and is
    written out. *)

(** Transparent black, the content of a new canvas. *)
Definition blank : pixel := 0.

(** The pixels of the rectangle [(x, y, w, h)]; a negative extent spans to
    the left of, or above, the origin, as the canvas standard has it. *)
Definition in_rect (x y w h i j : Z) : Prop :=
  (Z.min x (x + w) <= i < Z.max x (x + w)) /\
  (Z.min y (y + h) <= j < Z.max y (y + h)).

Global Instance in_rect_dec x y w h i j : Decision (in_rect x y w h i j).
Proof. unfold in_rect. apply _. Defined.

Definition in_region (r : SelectionArea) (i j : Z) : Prop :=
  in_rect (sel_x r) (sel_y r) (sel_w r) (sel_h r) i j.

Section Platform.

Variable over : pixel -> pixel -> pixel.
Variable resample : Bitmap -> Q -> Q -> Q -> Q -> Z -> Z -> Z -> Z -> Z -> Z -> pixel.
Variable decodeImage : JS.str -> option Bitmap.

(** [document.createElement('canvas')] with [width] and [height] set. *)
Definition createCanvas (width height : Z) : Bitmap :=
  mkBitmap width height (fun _ _ => blank).

(** [ctx.drawImage(img, dx, dy)] *)
Definition drawImage3 (cv img : Bitmap) (dx dy : Z) : Bitmap :=
  mkBitmap (bm_width cv) (bm_height cv)
    (fun i j =>
       if decide (in_rect dx dy (bm_width img) (bm_height img) i j)
       then over (bm_px img (i - dx) (j - dy)) (bm_px cv i j)
       else bm_px cv i j).

(** [ctx.drawImage(img, sx, sy, sw, sh, dx, dy, dw, dh)]: nothing is painted
    when the source rectangle has no width or no height. *)
Definition drawImage9 (cv img : Bitmap) (sx sy sw sh : Q) (dx dy dw dh : Z) : Bitmap :=
  if Qeq_bool sw 0 || Qeq_bool sh 0 then cv
  else
    mkBitmap (bm_width cv) (bm_height cv)
      (fun i j =>
         if decide (in_rect dx dy dw dh i j)
         then over (resample img sx sy sw sh dx dy dw dh i j) (bm_px cv i j)
         else bm_px cv i j).

(** The compositing block of [handleRestore]: a canvas of the source's size,
    the source drawn first, then each region cut out of the model's image. *)
Definition pasteRegion (originalImg aiImg : Bitmap) (cv : Bitmap) (sel : SelectionArea)
    : Bitmap :=
  let scaleX := Qdiv (inject_Z (bm_width aiImg)) (inject_Z (bm_width originalImg)) in
  let scaleY := Qdiv (inject_Z (bm_height aiImg)) (inject_Z (bm_height originalImg)) in
  drawImage9 cv aiImg
    (Qmult (inject_Z (sel_x sel)) scaleX) (Qmult (inject_Z (sel_y sel)) scaleY)
    (Qmult (inject_Z (sel_w sel)) scaleX) (Qmult (inject_Z (sel_h sel)) scaleY)
    (sel_x sel) (sel_y sel) (sel_w sel) (sel_h sel).

Definition composite (originalImg aiImg : Bitmap) (regions : list SelectionArea)
    : Bitmap :=
  let compositeCanvas := createCanvas (bm_width originalImg) (bm_height originalImg) in
  let withSource := drawImage3 compositeCanvas originalImg 0 0 in
  foldl (pasteRegion originalImg aiImg) withSource regions.

(** [replacements[id] || ""] *)
Definition replacementOf (reps : Replacements) (id : Z) : JS.str :=
  default [] (reps !! id).

(** The predicate of the filter: [(replacements[s.id] || "").trim() !== ""]. *)
Definition hasInstruction (st : Store) (reps : Replacements) (l : ref) : Prop :=
  match st !! l with
  | Some obj => JS.trim (replacementOf reps (sel_id obj)) <> []
  | None => False
  end.

Global Instance hasInstruction_dec st reps l : Decision (hasInstruction st reps l).
Proof. unfold hasInstruction. destruct (st !! l); apply _. Defined.

Definition filteredSelections (s : App) : list ref :=
  filter (hasInstruction (store s) (replacements s)) (selections s).

Definition norm1000 (v extent : Z) : Z :=
  JS.round (Qmult (Qdiv (inject_Z v) (inject_Z extent)) (inject_Z 1000)).

Definition areasInstructions (canvas : Bitmap) (reps : Replacements)
    (sels : list SelectionArea) : list AreaInstruction :=
  imap (fun idx sel =>
          mkInstr (idx + 1)
            (norm1000 (sel_x sel) (bm_width canvas))
            (norm1000 (sel_y sel) (bm_height canvas))
            (norm1000 (sel_w sel) (bm_width canvas))
            (norm1000 (sel_h sel) (bm_height canvas))
            (replacementOf reps (sel_id sel)))
       sels.

Definition buildRequest (img : Bitmap) (s : App) (filtered : list ref)
    (targetSize : TargetSize) : Request :=
  mkRequest img
    (areasInstructions img (replacements s) (deref (store s) filtered))
    targetSize
    (negb (Qle_bool (Qdiv (inject_Z (bm_width img)) (inject_Z (bm_height img))) (12 # 10))).

(** [handleRestore] up to the awaited call. *)
Definition handleRestore_start (s : App) (targetSize : TargetSize) : App * list Effect :=
  match image s with
  | None => (s, [])
  | Some img =>
      if decide (length (selections s) = 0%nat) then (s, [])
      else
        let filtered := filteredSelections s in
        if decide (length filtered = 0%nat) then (s, [Alert NoticeEmptyInstruction])
        else
          (setPending (setIsProcessing s true) (Some (mkPending img filtered)),
           [GenerateContent (buildRequest img s filtered targetSize)])
  end.

(** The loop over the parts: the [data] of the first part that has
    [inlineData], or [null]. *)
Fixpoint aiResultBase64 (parts : list Part) : option JS.str :=
  match parts with
  | [] => None
  | TextPart _ :: rest => aiResultBase64 rest
  | InlinePart data :: _ => data
  end.

(** [!aiResultBase64] is false. *)
Definition truthy (d : option JS.str) : bool :=
  match d with
  | Some (_ :: _) => true
  | _ => false
  end.

Inductive Settled :=
| Composited (result : Bitmap)
| Thrown
| NeverLoads.

Definition settle (p : Pending) (reply : ModelReply) (st : Store) : Settled :=
  match reply with
  | CallRejected => Thrown
  | Response parts =>
      let data := aiResultBase64 parts in
      if truthy data then
        match decodeImage (default [] data) with
        | Some aiImg => Composited (composite (pd_image p) aiImg (deref st (pd_filtered p)))
        | None => NeverLoads
        end
      else Thrown
  end.

(** [handleRestore] from the awaited call on: the [try] body, the [catch]
    and the [finally].  When the returned image never loads the function
    stays suspended and [finally] is not reached. *)
Definition handleRestore_settle (s : App) (p : Pending) (reply : ModelReply)
    : App * list Effect :=
  match settle p reply (store s) with
  | Composited result =>
      (setPending (setIsProcessing (setResultImage s (Some result)) false) None, [])
  | Thrown =>
      (setPending (setIsProcessing s false) None, [Alert NoticeRestoreFailed])
  | NeverLoads => (setPending s None, [])
  end.

(** The [disabled] attribute of the three restore buttons. *)
Definition restoreDisabled (s : App) : bool :=
  isProcessing s || bool_decide (image s = None)
  || bool_decide (length (selections s) = 0%nat).

(** ** The event loop *)

Inductive Event :=
| EvLoadImage (img : Bitmap)
| EvMouseDown (now : Z) (pos : Z * Z)
| EvMouseMove (pos : Z * Z)
| EvMouseUp
| EvUpdateReplacement (id : Z) (text : JS.str)
| EvReplacementBlur (id : Z)
| EvRemoveSelection (id : Z)
| EvUndo
| EvRedo
| EvRestore (targetSize : TargetSize)
| EvModelReply (reply : ModelReply).

(** The canvas, and with it the pointer handlers, is mounted only while an
    image is loaded; a disabled button delivers no click. *)
Definition handle (s : App) (e : Event) : App * list Effect :=
  match e with
  | EvLoadImage img => (loadImage s img, [])
  | EvMouseDown now pos =>
      if image s is Some _ then onMouseDown s now pos else (s, [])
  | EvMouseMove pos =>
      if image s is Some _ then (onMouseMove s pos, []) else (s, [])
  | EvMouseUp =>
      if image s is Some _ then (onMouseUp s, []) else (s, [])
  | EvUpdateReplacement id text => (updateReplacement s id text, [])
  | EvReplacementBlur id => (handleReplacementBlur s id, [])
  | EvRemoveSelection id => (removeSelection s id, [])
  | EvUndo => (undo s, [])
  | EvRedo => (redo s, [])
  | EvRestore targetSize =>
      if restoreDisabled s then (s, []) else handleRestore_start s targetSize
  | EvModelReply reply =>
      match pending s with
      | Some p => handleRestore_settle s p reply
      | None => (s, [])
      end
  end.

Definition step (s : App) (e : Event) : App := (handle s e).1.

Definition run (s : App) (es : list Event) : App := foldl step s es.

Inductive reachable : App -> Prop :=
| reach_init : reachable initialApp
| reach_step s e : reachable s -> reachable (step s e).

End Platform.

(** ** History operations as a language, for sequences of them *)

Inductive HistoryOp :=
| OpCommit (newSelections : list ref) (newReplacements : Replacements)
| OpUndo
| OpRedo.

Definition applyOp (s : App) (op : HistoryOp) : App :=
  match op with
  | OpCommit a r => pushToHistory s a r
  | OpUndo => undo s
  | OpRedo => redo s
  end.

(** The bound on the log and the range of the cursor. *)
Definition histInv (s : App) : Prop :=
  (length (history s) <= HISTORY_CAPACITY)%nat /\
  -1 <= historyIndex s <= Z.of_nat (length (history s)) - 1.

(** The live state is the snapshot under the cursor, up to deep equality. *)
Definition committed (s : App) : Prop :=
  exists h, JS.index (history s) (historyIndex s) = Some h /\
            snapshotContent (store s) h = liveContent s.

(** Every reference held by the live array or by a snapshot points into the
    store. *)
Definition refsIn (st : Store) (a : list ref) : Prop :=
  Forall (fun l => (l < length st)%nat) a.

Definition wfRefs (s : App) : Prop :=
  refsIn (store s) (selections s) /\
  Forall (fun h => refsIn (store s) (hs_selections h)) (history s).

(** What [undo] and [redo] may not touch: everything but the cursor and the
    live selections and replacements. *)
Definition sameButCursorAndLive (s s' : App) : Prop :=
  history s' = history s /\ store s' = store s /\
  image s' = image s /\ isProcessing s' = isProcessing s /\
  resultImage s' = resultImage s /\ isDrawing s' = isDrawing s /\
  startPos s' = startPos s /\ pending s' = pending s.

(** ** Concrete inputs

    A browser for the examples: opaque painting, nearest-neighbour sampling
    and a decoder that knows one payload; two small images; and the states a
    few pointer events lead to. *)

Definition opaqueOver (src backdrop : pixel) : pixel := src.

Definition nearestSample (img : Bitmap) (sx sy sw sh : Q) (dx dy dw dh i j : Z) : pixel :=
  bm_px img
    (Qfloor (Qplus sx (Qdiv (Qmult (inject_Z (i - dx)) sw) (inject_Z dw))))
    (Qfloor (Qplus sy (Qdiv (Qmult (inject_Z (j - dy)) sh) (inject_Z dh)))).

Definition slide : Bitmap := mkBitmap 800 600 (fun i j => 1 + i + 800 * j).

Definition generated : Bitmap := mkBitmap 1600 1200 (fun i j => - (1 + i + 1600 * j)).

Definition decodeOne (data : JS.str) : option Bitmap :=
  if decide (data = [65; 66]%N) then Some generated else None.

Definition runExample : App -> list Event -> App :=
  run opaqueOver nearestSample decodeOne.

(** One region drawn and committed, a second gesture begun and not ended. *)
Definition gestureBegun : App :=
  runExample initialApp
    [EvLoadImage slide;
     EvMouseDown 1 (10, 10); EvMouseMove (50, 50); EvMouseUp;
     EvMouseDown 2 (100, 100)].

(** Two regions drawn and committed, a third gesture begun; the pointer
    leaves the canvas, so no [onMouseUp] arrives. *)
Definition twoCommitted : App :=
  runExample initialApp
    [EvLoadImage slide;
     EvMouseDown 1 (10, 10); EvMouseMove (50, 50); EvMouseUp;
     EvMouseDown 2 (100, 100); EvMouseMove (150, 150); EvMouseUp].

Definition danglingThenUndo : list Event :=
  [EvMouseDown 3 (200, 200); EvUndo; EvMouseMove (300, 300)].

(** A zero-area region with the text "A" and a large region whose text is a
    space and a tab. *)
Definition zeroAreaWithText : App :=
  runExample initialApp
    [EvLoadImage slide;
     EvMouseDown 7 (10, 10); EvMouseUp;
     EvMouseDown 8 (20, 20); EvMouseMove (400, 300); EvMouseUp;
     EvUpdateReplacement 7 [65%N]; EvUpdateReplacement 8 [32%N; 9%N]].

(** A restore submitted from that state, awaiting the model. *)
Definition awaitingModel : App :=
  runExample zeroAreaWithText [EvRestore Size2K].

(** A response carries no image payload when none of its parts has inline
    data that is present and not empty. *)
Definition noImagePayload (parts : list Part) : Prop :=
  Forall (fun part => match part with
                      | TextPart _ => True
                      | InlinePart data => truthy data = false
                      end) parts.

(** ** Invariants of the whole application *)

(** [undo] and [redo] are the two events that hand a snapshot to the live
    state. *)
Definition isTimeTravel (e : Event) : bool :=
  match e with
  | EvUndo | EvRedo => true
  | _ => false
  end.

(** The array [a] points into the store and shares no object with the live
    array [live]. *)
Definition apartFrom (st : Store) (live a : list ref) : Prop :=
  refsIn st a /\ forall l, l ∈ live -> l ∉ a.

(** No snapshot of the log shares an object with the live array. *)
Definition aliasFree (s : App) : Prop :=
  Forall (fun h => forall l, l ∈ selections s -> l ∉ hs_selections h) (history s).

Definition textsWithin (r : Replacements) : Prop :=
  map_Forall (fun _ (t : JS.str) => (length t <= MAX_CHAR_LIMIT)%nat) r.

(** The two limits, on the live state and on every snapshot. *)
Definition withinLimits (s : App) : Prop :=
  (length (selections s) <= MAX_SELECTIONS)%nat /\
  textsWithin (replacements s) /\
  Forall (fun h => (length (hs_selections h) <= MAX_SELECTIONS)%nat /\
                   textsWithin (hs_replacements h)) (history s).

(** A suspended [handleRestore] exists only while [isProcessing] is set. *)
Definition inFlight (s : App) : Prop :=
  is_Some (pending s) -> isProcessing s = true.

Global Instance in_region_dec r i j : Decision (in_region r i j).
Proof. unfold in_region. apply _. Defined.

(** ** API key: [checkInitialKeyStatus], the mount effect,
    [handleSaveManualKey] and the change-key button

    [storedKey] is [localStorage[STORAGE_KEY]]; the other three fields are
    the [manualKey], [isKeySelected] and [showManualInput] cells.  What
    [window.aistudio] does is an input. *)

Record KeyState := mkKey {
  storedKey : option JS.str;
  manualKey : JS.str;
  isKeySelected : option bool;
  showManualInput : bool
}.

(** [window.aistudio?.hasSelectedApiKey]: absent, answering, or throwing. *)
Inductive Studio :=
| NoStudio
| StudioAnswers (selected : bool)
| StudioThrows.

(** [savedKey && savedKey.length > 10] *)
Definition savedKeyUsable (k : option JS.str) : bool :=
  match k with
  | Some key => bool_decide (10 < length key)%nat
  | None => false
  end.

Definition checkInitialKeyStatus (k : KeyState) (studio : Studio) : KeyState :=
  match studio with
  | StudioAnswers true => mkKey (storedKey k) (manualKey k) (Some true) (showManualInput k)
  | StudioThrows => mkKey (storedKey k) (manualKey k) (Some false) (showManualInput k)
  | _ => mkKey (storedKey k) (manualKey k) (Some (savedKeyUsable (storedKey k)))
           (showManualInput k)
  end.

(** The mount effect: the status check, then [manualKey] takes the stored
    key when there is a non-empty one. *)
Definition onMount (k : KeyState) (studio : Studio) : KeyState :=
  let k1 := checkInitialKeyStatus k studio in
  match storedKey k1 with
  | Some (c :: key) => mkKey (storedKey k1) (c :: key) (isKeySelected k1) (showManualInput k1)
  | _ => k1
  end.

(** The result is the new state and whether the invalid-key alert is shown. *)
Definition handleSaveManualKey (k : KeyState) : KeyState * bool :=
  if decide (length (JS.trim (manualKey k)) < 10)%nat then (k, true)
  else (mkKey (Some (JS.trim (manualKey k))) (manualKey k) (Some true) (showManualInput k),
        false).

(** The button of the header: [localStorage.removeItem], then the two
    setters. *)
Definition changeKey (k : KeyState) : KeyState :=
  mkKey None (manualKey k) (Some false) true.

(** ** PDF pages: [handlePdfUpload], [handleImageUpload], [handlePageChange]

    A loaded PDF is its page count and the raster each page renders to;
    [pdf_page] is [None] where [getPage] rejects. *)

Record PdfDoc := mkPdf {
  pdf_numPages : Z;
  pdf_page : Z -> option Bitmap
}.

Record Doc := mkDoc {
  app : App;
  pdfDoc : option PdfDoc;
  currentPageNum : Z;
  numPages : Z
}.

Definition renderPdfPage (d : Doc) (pdf : PdfDoc) (pageNum : Z) : Doc :=
  match pdf_page pdf pageNum with
  | Some img => mkDoc (loadImage (app d) img) (pdfDoc d) (currentPageNum d) (numPages d)
  | None => d
  end.

Definition handlePdfUpload (d : Doc) (pdf : PdfDoc) : Doc :=
  renderPdfPage (mkDoc (app d) (Some pdf) 1 (pdf_numPages pdf)) pdf 1.

Definition handleImageUpload (d : Doc) (img : Bitmap) : Doc :=
  mkDoc (loadImage (app d) img) None (currentPageNum d) (numPages d).

Definition handlePageChange (d : Doc) (newPageNum : Z) : Doc :=
  match pdfDoc d with
  | Some pdf =>
      if decide (newPageNum < 1 \/ numPages d < newPageNum) then d
      else renderPdfPage (mkDoc (app d) (pdfDoc d) newPageNum (numPages d)) pdf newPageNum
  | None => d
  end.

Inductive DocEvent :=
| DocPdfUpload (pdf : PdfDoc)
| DocImageUpload (img : Bitmap)
| DocPageChange (newPageNum : Z).

Definition docStep (d : Doc) (e : DocEvent) : Doc :=
  match e with
  | DocPdfUpload pdf => handlePdfUpload d pdf
  | DocImageUpload img => handleImageUpload d img
  | DocPageChange n => handlePageChange d n
  end.

Definition initialDoc : Doc := mkDoc initialApp None 1 0.

(** ** Further concrete inputs *)

(** A key of exactly ten code units, with a space on each side. *)
Definition tenUnitKey : KeyState :=
  mkKey None ([32] ++ replicate 10 65 ++ [32])%N None true.

(** A response whose first inline part has no data and whose second has. *)
Definition emptyThenImage : list Part :=
  [TextPart [79; 75]%N; InlinePart None; InlinePart (Some [65; 66]%N)].

Definition threePages : PdfDoc :=
  mkPdf 3 (fun n => if decide (1 <= n <= 3) then Some slide else None).

(** * Properties *)

(** ** Arrays, strings and the store *)

Lemma slice0_length {A} (a : list A) (e : Z) :
  0 <= e <= Z.of_nat (length a) -> length (JS.slice0 a e) = Z.to_nat e.
Proof.
  intros He. unfold JS.slice0. destruct (decide (e < 0)); [lia|].
  rewrite length_take. lia.
Qed.

Lemma slice0_take {A} (a : list A) (e : Z) :
  0 <= e -> JS.slice0 a e = take (Z.to_nat e) a.
Proof. intros He. unfold JS.slice0. destruct (decide (e < 0)); [lia|done]. Qed.

Lemma index_lookup {A} (a : list A) (i : Z) :
  0 <= i -> JS.index a i = a !! Z.to_nat i.
Proof. intros Hi. unfold JS.index. destruct (decide (0 <= i)); [done|lia]. Qed.

Lemma index_is_Some {A} (a : list A) (i : Z) :
  0 <= i < Z.of_nat (length a) -> is_Some (JS.index a i).
Proof.
  intros Hi. rewrite index_lookup by lia. apply lookup_lt_is_Some. lia.
Qed.

Lemma index_Some_range {A} (a : list A) (i : Z) (v : A) :
  JS.index a i = Some v -> 0 <= i < Z.of_nat (length a).
Proof.
  unfold JS.index. destruct (decide (0 <= i)); [|done].
  intros Hl%lookup_lt_Some. lia.
Qed.





Lemma deref_nil (st : Store) : deref st [] = [].
Proof. reflexivity. Qed.

Lemma deref_cons (st : Store) (l : ref) (a : list ref) :
  deref st (l :: a) =
  match st !! l with Some v => v :: deref st a | None => deref st a end.
Proof. reflexivity. Qed.

Lemma deref_cons_Some (st : Store) (l : ref) (a : list ref) (v : SelectionArea) :
  st !! l = Some v -> deref st (l :: a) = v :: deref st a.
Proof. intros H. by rewrite deref_cons, H. Qed.

Lemma deref_app (st : Store) (a b : list ref) :
  deref st (a ++ b) = deref st a ++ deref st b.
Proof. apply omap_app. Qed.

(** Growing the store leaves every array that points into it as it was. *)
Lemma deref_extend (st ext : Store) (a : list ref) :
  refsIn st a -> deref (st ++ ext) a = deref st a.
Proof.
  unfold refsIn. induction 1 as [|l a Hl _ IH]; [done|].
  rewrite !deref_cons, lookup_app_l by done. by rewrite IH.
Qed.

Lemma deref_length (st : Store) (a : list ref) :
  refsIn st a -> length (deref st a) = length a.
Proof.
  unfold refsIn. induction 1 as [|l a Hl _ IH]; [done|].
  rewrite deref_cons.
  destruct (lookup_lt_is_Some_2 st l Hl) as [v ->]. simpl. by rewrite IH.
Qed.

(** The copies made by [deepCopy] hold exactly the values copied. *)
Lemma deref_fresh (st vals : Store) :
  deref (st ++ vals) (seq (length st) (length vals)) = vals.
Proof.
  revert st. induction vals as [|v vals IH]; intros st; [done|].
  change (seq (length st) (length (v :: vals)))
    with (length st :: seq (S (length st)) (length vals)).
  rewrite (deref_cons_Some _ _ _ v).
  - f_equal. specialize (IH (st ++ [v])).
    rewrite <- app_assoc, length_app in IH. simpl in IH.
    by replace (length st + 1)%nat with (S (length st)) in IH by lia.
  - rewrite lookup_app_r by lia. by rewrite Nat.sub_diag.
Qed.

(** Assigning to an object leaves the arrays that do not hold it as they
    were. *)
Lemma deref_insert_notin (st : Store) (a : list ref) (l : ref) (v : SelectionArea) :
  l ∉ a -> deref (<[l := v]> st) a = deref st a.
Proof.
  induction a as [|k a IH]; [done|].
  intros [Hk Ha]%not_elem_of_cons.
  rewrite !deref_cons, list_lookup_insert_ne by done. by rewrite IH.
Qed.

Lemma refsIn_extend (st ext : Store) (a : list ref) :
  refsIn st a -> refsIn (st ++ ext) a.
Proof.
  unfold refsIn. intros H. eapply Forall_impl; [exact H|].
  intros l Hl. simpl in *. rewrite length_app. lia.
Qed.

Lemma refsIn_fresh (st vals : Store) :
  refsIn (st ++ vals) (seq (length st) (length vals)).
Proof.
  unfold refsIn. apply Forall_forall. intros l Hl%elem_of_seq.
  rewrite length_app. lia.
Qed.

(** ** The history log *)

Lemma pushToHistory_eq (s : App) (a : list ref) (r : Replacements) :
  pushToHistory s a r =
  let copies := seq (length (store s)) (length (deref (store s) a)) in
  let updated := JS.slice0 (history s) (historyIndex s + 1) ++ [mkHist copies r] in
  setHistoryIndex
    (setHistory (setStore s (store s ++ deref (store s) a))
       (if decide (HISTORY_CAPACITY < length updated)%nat then drop 1 updated else updated))
    (Z.min (historyIndex s + 1) 49).
Proof. reflexivity. Qed.

(** What a commit leaves in the log, case by case. *)
Lemma pushToHistory_history (s : App) (a : list ref) (r : Replacements) :
  histInv s ->
  let snap := mkHist (seq (length (store s)) (length (deref (store s) a))) r in
  let kept := take (Z.to_nat (historyIndex s + 1)) (history s) in
  history (pushToHistory s a r) =
    (if decide (historyIndex s = 49) then drop 1 kept ++ [snap] else kept ++ [snap])
  /\ length kept = Z.to_nat (historyIndex s + 1).
Proof.
  intros [Hlen Hidx]. unfold HISTORY_CAPACITY in *. cbv zeta.
  assert (Hk : length (take (Z.to_nat (historyIndex s + 1)) (history s))
               = Z.to_nat (historyIndex s + 1)) by (rewrite length_take; lia).
  split; [|done].
  rewrite pushToHistory_eq. cbv zeta. cbn [history setHistoryIndex setHistory].
  rewrite slice0_take by lia. unfold HISTORY_CAPACITY.
  rewrite length_app, Hk. cbn [length].
  destruct (decide (historyIndex s = 49)) as [He|Hne].
  - rewrite decide_True by lia.
    destruct (take (Z.to_nat (historyIndex s + 1)) (history s)) eqn:Ht; [|done].
    simpl in Hk. lia.
  - by rewrite decide_False by lia.
Qed.

Lemma pushToHistory_histInv (s : App) (a : list ref) (r : Replacements) :
  histInv s -> histInv (pushToHistory s a r).
Proof.
  intros Hinv. destruct (pushToHistory_history s a r Hinv) as [Hh Hk].
  destruct Hinv as [Hlen Hidx]. unfold histInv, HISTORY_CAPACITY in *.
  rewrite Hh. rewrite pushToHistory_eq. simpl.
  destruct (decide (historyIndex s = 49)).
  - rewrite length_app, length_drop, Hk. simpl. lia.
  - rewrite length_app, Hk. simpl. lia.
Qed.

Lemma undo_histInv (s : App) : histInv s -> histInv (undo s).
Proof.
  intros [Hlen Hidx]. unfold undo, histInv in *.
  destruct (decide (0 < historyIndex s)).
  - destruct (JS.index (history s) (historyIndex s - 1)); simpl; [lia|done].
  - destruct (decide (historyIndex s = 0)); simpl; [lia|done].
Qed.

Lemma redo_histInv (s : App) : histInv s -> histInv (redo s).
Proof.
  intros [Hlen Hidx]. unfold redo, histInv in *.
  destruct (decide (historyIndex s < Z.of_nat (length (history s)) - 1)); [|done].
  destruct (JS.index (history s) (historyIndex s + 1)); simpl; [lia|done].
Qed.

Lemma applyOp_histInv (s : App) (op : HistoryOp) : histInv s -> histInv (applyOp s op).
Proof.
  destruct op; simpl;
    auto using pushToHistory_histInv, undo_histInv, redo_histInv.
Qed.

(** C2.  Starting from an empty history with the cursor at -1, after every
    sequence of commit, undo and redo operations the log holds at most 50
    snapshots and the cursor lies between -1 and the last index of the log. *)
Theorem history_bounded_and_cursor_in_range (s0 : App) (ops : list HistoryOp) :
  history s0 = [] -> historyIndex s0 = -1 ->
  let s := foldl applyOp s0 ops in
  (length (history s) <= 50)%nat /\
  -1 <= historyIndex s <= Z.of_nat (length (history s)) - 1.
Proof.
  intros Hh Hi. simpl.
  assert (H0 : histInv s0).
  { unfold histInv, HISTORY_CAPACITY. rewrite Hh, Hi. simpl. lia. }
  clear Hh Hi. revert s0 H0.
  induction ops as [|op ops IH]; intros s0 H0; simpl.
  - exact H0.
  - apply IH, applyOp_histInv, H0.
Qed.

(** C10.  [undo] and [redo] leave the log as it is: the sequence of stored
    snapshots, its length and the objects the snapshots hold are unchanged,
    and so is every other part of the state except the cursor and the live
    selections and replacements. *)
Theorem undo_redo_leave_log_unchanged (s : App) :
  (sameButCursorAndLive s (undo s) /\
   length (history (undo s)) = length (history s) /\
   logContent (undo s) = logContent s) /\
  (sameButCursorAndLive s (redo s) /\
   length (history (redo s)) = length (history s) /\
   logContent (redo s) = logContent s).
Proof.
  unfold sameButCursorAndLive, logContent. split.
  - unfold undo. destruct (decide (0 < historyIndex s)).
    + destruct (JS.index (history s) (historyIndex s - 1)); simpl; tauto.
    + destruct (decide (historyIndex s = 0)); simpl; tauto.
  - unfold redo.
    destruct (decide (historyIndex s < Z.of_nat (length (history s)) - 1));
      [|tauto].
    destruct (JS.index (history s) (historyIndex s + 1)); simpl; tauto.
Qed.

(** The state right after [undo], when the cursor was on a snapshot of the
    log. *)
Lemma undo_at_cursor (s : App) :
  0 <= historyIndex s < Z.of_nat (length (history s)) ->
  historyIndex (undo s) = historyIndex s - 1 /\
  history (undo s) = history s /\ store (undo s) = store s.
Proof.
  intros Hi. unfold undo. destruct (decide (0 < historyIndex s)).
  - destruct (index_is_Some (history s) (historyIndex s - 1)) as [p ->]; [lia|].
    simpl. done.
  - rewrite decide_True by lia. simpl. split; [lia|done].
Qed.

(** C3, as the code has it.  When the live selections and replacements are
    those of the snapshot under the cursor (nothing was edited since the last
    commit, undo or redo), undo followed by redo gives back selections and
    replacements deep-equal to those before the undo, with the cursor and
    the log as they were. *)
Theorem undo_redo_restores_committed_state (s : App) :
  -1 < historyIndex s ->
  redoDisabled (undo s) = false ->
  committed s ->
  liveContent (redo (undo s)) = liveContent s /\
  historyIndex (redo (undo s)) = historyIndex s /\
  history (redo (undo s)) = history s.
Proof.
  intros Hlegal _ (h & Hh & Hsync).
  pose proof (index_Some_range _ _ _ Hh) as Hr.
  destruct (undo_at_cursor s Hr) as (Hi & Hhist & Hst).
  unfold redo. rewrite Hhist, Hi.
  rewrite decide_True by lia.
  replace (historyIndex s - 1 + 1) with (historyIndex s) by lia.
  rewrite Hh. unfold liveContent. simpl. rewrite Hst.
  unfold liveContent, snapshotContent in Hsync. rewrite Hsync.
  split; [done|]. split; [done|]. exact Hhist.
Qed.

Lemma run_reachable over resample decodeImage (s : App) (es : list Event) :
  reachable over resample decodeImage s ->
  reachable over resample decodeImage (run over resample decodeImage s es).
Proof.
  revert s. induction es as [|e es IH]; intros s Hs; simpl; [done|].
  apply IH. by constructor.
Qed.

(** C3 as stated fails.  With one region committed and a second gesture
    begun but not ended, undo and redo are both legal, yet the region of the
    gesture is gone after them. *)
Lemma undo_redo_drops_uncommitted_region :
  reachable opaqueOver nearestSample decodeOne gestureBegun /\
  -1 < historyIndex gestureBegun /\
  undoDisabled gestureBegun = false /\
  redoDisabled (undo gestureBegun) = false /\
  (liveContent gestureBegun).1 = [mkArea 1 10 10 40 40; mkArea 2 100 100 0 0] /\
  (liveContent (redo (undo gestureBegun))).1 = [mkArea 1 10 10 40 40] /\
  liveContent (redo (undo gestureBegun)) <> liveContent gestureBegun.
Proof.
  split; [apply run_reachable; constructor|].
  split; [by vm_compute|].
  split; [by vm_compute|]. split; [by vm_compute|].
  split; [by vm_compute|]. split; [by vm_compute|].
  intros H. apply (f_equal fst) in H. vm_compute in H. discriminate H.
Qed.

Lemma undo_redo_restores_committed_state_witness :
  -1 < historyIndex twoCommitted /\
  redoDisabled (undo twoCommitted) = false /\
  committed twoCommitted /\
  liveContent (redo (undo twoCommitted)) = liveContent twoCommitted /\
  historyIndex (redo (undo twoCommitted)) = historyIndex twoCommitted /\
  history (redo (undo twoCommitted)) = history twoCommitted.
Proof.
  assert (H1 : -1 < historyIndex twoCommitted) by (vm_compute; reflexivity).
  assert (H2 : redoDisabled (undo twoCommitted) = false) by (vm_compute; reflexivity).
  assert (H3 : committed twoCommitted).
  { exists (mkHist [3; 4]%nat ∅). split; vm_compute; reflexivity. }
  split; [exact H1|]. split; [exact H2|]. split; [exact H3|].
  exact (undo_redo_restores_committed_state twoCommitted H1 H2 H3).
Defined.

(** A commit of the live state leaves the live state committed, and so do
    [undo] and [redo] wherever they move the cursor onto a snapshot. *)
Lemma pushToHistory_live_committed (s : App) :
  histInv s -> refsIn (store s) (selections s) ->
  committed (pushToHistory s (selections s) (replacements s)).
Proof.
  intros Hinv Hwf.
  destruct (pushToHistory_history s (selections s) (replacements s) Hinv) as [Hh Hk].
  pose proof Hinv as [Hlen Hidx]. unfold HISTORY_CAPACITY in *.
  set (snap := mkHist (seq (length (store s)) (length (deref (store s) (selections s))))
                 (replacements s)) in *.
  exists snap. split.
  - rewrite Hh. rewrite pushToHistory_eq. cbv zeta. cbn [historyIndex setHistoryIndex].
    rewrite index_lookup by lia.
    destruct (decide (historyIndex s = 49)) as [He|Hne].
    + rewrite lookup_app_r by (rewrite length_drop, Hk; lia).
      rewrite length_drop, Hk.
      replace (Z.to_nat ((historyIndex s + 1) `min` 49) - (Z.to_nat (historyIndex s + 1) - 1))%nat
        with 0%nat by lia.
      done.
    + rewrite lookup_app_r by (rewrite Hk; lia).
      rewrite Hk.
      replace (Z.to_nat ((historyIndex s + 1) `min` 49) - Z.to_nat (historyIndex s + 1))%nat
        with 0%nat by lia.
      done.
  - rewrite pushToHistory_eq. unfold snapshotContent, liveContent. cbv zeta. simpl.
    by rewrite deref_fresh, deref_extend.
Qed.

Lemma undo_committed (s : App) :
  0 < historyIndex s <= Z.of_nat (length (history s)) -> committed (undo s).
Proof.
  intros Hi. unfold undo. rewrite decide_True by lia.
  destruct (index_is_Some (history s) (historyIndex s - 1)) as [p Hp]; [lia|].
  rewrite Hp. exists p. split; [exact Hp|done].
Qed.

Lemma redo_committed (s : App) :
  -1 <= historyIndex s < Z.of_nat (length (history s)) - 1 -> committed (redo s).
Proof.
  intros Hi. unfold redo. rewrite decide_True by lia.
  destruct (index_is_Some (history s) (historyIndex s + 1)) as [p Hp]; [lia|].
  rewrite Hp. exists p. split; [exact Hp|done].
Qed.

Lemma pushToHistory_wfRefs (s : App) (a : list ref) (r : Replacements) :
  wfRefs s -> wfRefs (pushToHistory s a r).
Proof.
  intros [Hsel Hhist]. rewrite pushToHistory_eq. cbv zeta.
  unfold wfRefs. simpl. split; [by apply refsIn_extend|].
  assert (Hall : Forall (fun h => refsIn (store s ++ deref (store s) a) (hs_selections h))
            (JS.slice0 (history s) (historyIndex s + 1)
               ++ [mkHist (seq (length (store s)) (length (deref (store s) a))) r])).
  { apply Forall_app. split.
    - unfold JS.slice0. destruct (decide (historyIndex s + 1 < 0));
        apply Forall_take; (eapply Forall_impl; [exact Hhist|]);
        intros h Hh; by apply refsIn_extend.
    - constructor; [|constructor]. simpl. apply refsIn_fresh. }
  destruct (decide _); [by apply Forall_drop|done].
Qed.

(** C4.  On a log of at most 50 snapshots with the cursor at position [i] of
    it, a commit keeps the snapshots up to position [i] as they are, drops
    those after it, appends a snapshot holding a copy of the committed
    selections and replacements, drops the oldest entry when the length would
    exceed 50, and leaves the cursor on the newest entry, where redo is
    disabled and does nothing. *)
Theorem commit_truncates_appends_and_advances
    (s : App) (newSelections : list ref) (newReplacements : Replacements) :
  histInv s -> wfRefs s ->
  let s' := pushToHistory s newSelections newReplacements in
  let kept := take (Z.to_nat (historyIndex s + 1)) (history s) in
  exists snap,
    snapshotContent (store s') snap = (deref (store s) newSelections, newReplacements) /\
    history s' =
      (if decide (50 < length (kept ++ [snap]))%nat
       then drop 1 (kept ++ [snap]) else kept ++ [snap]) /\
    snapshotContent (store s') <$> kept = snapshotContent (store s) <$> kept /\
    last (history s') = Some snap /\
    historyIndex s' = Z.of_nat (length (history s')) - 1 /\
    redoDisabled s' = true /\
    redo s' = s'.
Proof.
  intros Hinv [Hsel Hhist]. cbv zeta.
  pose proof (pushToHistory_histInv s newSelections newReplacements Hinv) as [Hlen' Hidx'].
  destruct (pushToHistory_history s newSelections newReplacements Hinv) as [Hh Hk].
  pose proof Hinv as [Hlen Hidx]. unfold HISTORY_CAPACITY in *.
  set (snap := mkHist (seq (length (store s)) (length (deref (store s) newSelections)))
                 newReplacements) in *.
  set (kept := take (Z.to_nat (historyIndex s + 1)) (history s)) in *.
  set (s' := pushToHistory s newSelections newReplacements) in *.
  assert (Hst : store s' = store s ++ deref (store s) newSelections) by reflexivity.
  assert (Hi : historyIndex s' = Z.min (historyIndex s + 1) 49) by reflexivity.
  assert (Hcur : historyIndex s' = Z.of_nat (length (history s')) - 1).
  { rewrite Hi, Hh. destruct (decide (historyIndex s = 49)).
    - rewrite length_app, length_drop, Hk. simpl. lia.
    - rewrite length_app, Hk. simpl. lia. }
  exists snap. repeat split.
  - unfold snapshotContent. rewrite Hst. simpl. by rewrite deref_fresh.
  - rewrite Hh. rewrite length_app, Hk. simpl.
    destruct (decide (historyIndex s = 49)).
    + rewrite decide_True by lia.
      destruct kept; [simpl in Hk; lia|done].
    + by rewrite decide_False by lia.
  - apply list_fmap_ext. intros k h Hkh. unfold snapshotContent. rewrite Hst.
    rewrite deref_extend; [done|].
    apply lookup_take_Some in Hkh as [Hkh _].
    eapply Forall_lookup_1 in Hhist; [exact Hhist|exact Hkh].
  - rewrite Hh. destruct (decide (historyIndex s = 49)); apply last_snoc.
  - exact Hcur.
  - unfold redoDisabled. apply bool_decide_eq_true. lia.
  - unfold redo. rewrite decide_False by lia. done.
Qed.

Lemma commit_truncates_appends_and_advances_witness :
  histInv (undo twoCommitted) /\ wfRefs (undo twoCommitted) /\
  exists snap,
    snapshotContent (store (pushToHistory (undo twoCommitted) [0%nat] ∅)) snap
      = ([mkArea 1 10 10 40 40], ∅) /\
    history (pushToHistory (undo twoCommitted) [0%nat] ∅)
      = take 1 (history twoCommitted) ++ [snap] /\
    historyIndex (pushToHistory (undo twoCommitted) [0%nat] ∅) = 1 /\
    redoDisabled (pushToHistory (undo twoCommitted) [0%nat] ∅) = true.
Proof.
  assert (E1 : historyIndex (undo twoCommitted) = 0) by (vm_compute; reflexivity).
  assert (E2 : length (history (undo twoCommitted)) = 2%nat) by (vm_compute; reflexivity).
  assert (H1 : histInv (undo twoCommitted)).
  { unfold histInv, HISTORY_CAPACITY. rewrite E1, E2. lia. }
  assert (H2 : wfRefs (undo twoCommitted)).
  { unfold wfRefs, refsIn. vm_compute. repeat constructor. }
  split; [exact H1|]. split; [exact H2|].
  destruct (commit_truncates_appends_and_advances (undo twoCommitted) [0%nat] ∅ H1 H2)
    as (snap & Hc & Hh & _ & _ & Hi & Hr & _).
  exists snap. split; [rewrite Hc; vm_compute; reflexivity|].
  split; [rewrite Hh; vm_compute; reflexivity|]. split; [|exact Hr].
  rewrite Hi, Hh. vm_compute. reflexivity.
Defined.

(** ** Invariants of the event loop *)

Lemma onMouseDown_wfRefs (s : App) (now : Z) (pos : Z * Z) :
  wfRefs s -> wfRefs (onMouseDown s now pos).1.
Proof.
  intros [Hsel Hhist]. unfold onMouseDown.
  destruct (isProcessing s); [done|].
  destruct (decide _); [done|].
  unfold wfRefs. simpl. split.
  - apply Forall_app. split; [by apply refsIn_extend|].
    constructor; [|constructor]. rewrite length_app. simpl. lia.
  - eapply Forall_impl; [exact Hhist|]. intros h Hh. by apply refsIn_extend.
Qed.

Lemma refsIn_insert (st : Store) (a : list ref) (l : ref) (v : SelectionArea) :
  refsIn st a -> refsIn (<[l := v]> st) a.
Proof. unfold refsIn. by rewrite length_insert. Qed.

Lemma onMouseMove_wfRefs (s : App) (pos : Z * Z) :
  wfRefs s -> wfRefs (onMouseMove s pos).
Proof.
  intros [Hsel Hhist]. unfold onMouseMove.
  destruct (isDrawing s); [|done].
  destruct (last (selections s)); [|done].
  destruct (store s !! _); [|done].
  unfold wfRefs. simpl. split; [by apply refsIn_insert|].
  eapply Forall_impl; [exact Hhist|]. intros h Hh. by apply refsIn_insert.
Qed.

Lemma undo_wfRefs (s : App) : wfRefs s -> wfRefs (undo s).
Proof.
  intros [Hsel Hhist]. unfold undo.
  destruct (decide (0 < historyIndex s)).
  - destruct (JS.index (history s) (historyIndex s - 1)) as [p|] eqn:Hp; [|done].
    unfold wfRefs. simpl. split; [|done].
    unfold JS.index in Hp. destruct (decide _); [|done].
    eapply Forall_lookup_1 in Hhist; [exact Hhist|exact Hp].
  - destruct (decide (historyIndex s = 0)); [|done].
    unfold wfRefs. simpl. split; [constructor|done].
Qed.

Lemma redo_wfRefs (s : App) : wfRefs s -> wfRefs (redo s).
Proof.
  intros [Hsel Hhist]. unfold redo.
  destruct (decide _); [|done].
  destruct (JS.index (history s) (historyIndex s + 1)) as [p|] eqn:Hp; [|done].
  unfold wfRefs. simpl. split; [|done].
  unfold JS.index in Hp. destruct (decide _); [|done].
  eapply Forall_lookup_1 in Hhist; [exact Hhist|exact Hp].
Qed.

Lemma removeSelection_wfRefs (s : App) (id : Z) : wfRefs s -> wfRefs (removeSelection s id).
Proof.
  intros [Hsel Hhist]. unfold removeSelection.
  apply pushToHistory_wfRefs. unfold wfRefs. simpl. split; [|done].
  unfold refsIn. apply Forall_forall. intros l [_ Hl]%list_elem_of_filter.
  unfold refsIn in Hsel. rewrite Forall_forall in Hsel. by apply Hsel.
Qed.

Section EventLoop.

Variable over : pixel -> pixel -> pixel.
Variable resample : Bitmap -> Q -> Q -> Q -> Q -> Z -> Z -> Z -> Z -> Z -> Z -> pixel.
Variable decodeImage : JS.str -> option Bitmap.

Lemma handleRestore_start_frame (s : App) (t : TargetSize) :
  let s' := (handleRestore_start s t).1 in
  history s' = history s /\ historyIndex s' = historyIndex s /\
  store s' = store s /\ selections s' = selections s /\
  replacements s' = replacements s /\ resultImage s' = resultImage s.
Proof.
  unfold handleRestore_start. destruct (image s); [|done].
  destruct (decide _); [done|]. destruct (decide _); done.
Qed.

Lemma handleRestore_settle_frame (s : App) (p : Pending) (reply : ModelReply) :
  let s' := (handleRestore_settle over resample decodeImage s p reply).1 in
  history s' = history s /\ historyIndex s' = historyIndex s /\
  store s' = store s /\ selections s' = selections s /\
  replacements s' = replacements s.
Proof.
  unfold handleRestore_settle. destruct (settle _ _ _ _ _ _); done.
Qed.

Lemma step_histInv (s : App) (e : Event) :
  histInv s -> histInv (step over resample decodeImage s e).
Proof.
  intros Hinv. unfold step. destruct e; simpl.
  - unfold histInv, HISTORY_CAPACITY. simpl. lia.
  - destruct (image s); [|done]. unfold onMouseDown.
    destruct (isProcessing s); [done|]. destruct (decide _); done.
  - destruct (image s); [|done]. unfold onMouseMove. simpl.
    destruct (isDrawing s); [|done]. destruct (last _); [|done].
    destruct (store s !! _); done.
  - destruct (image s); [|done]. unfold onMouseUp. simpl.
    destruct (isDrawing s); [|done]. by apply pushToHistory_histInv.
  - unfold updateReplacement. destruct (decide _); done.
  - unfold handleReplacementBlur. destruct (JS.index _ _).
    + destruct (decide _); [by apply pushToHistory_histInv|done].
    + by apply pushToHistory_histInv.
  - unfold removeSelection. by apply pushToHistory_histInv.
  - by apply undo_histInv.
  - by apply redo_histInv.
  - destruct (restoreDisabled s); [done|].
    destruct (handleRestore_start_frame s targetSize) as (Hh & Hi & _).
    unfold histInv. by rewrite Hh, Hi.
  - destruct (pending s) as [p|]; [|done].
    destruct (handleRestore_settle_frame s p reply) as (Hh & Hi & _).
    unfold histInv. by rewrite Hh, Hi.
Qed.

Lemma step_wfRefs (s : App) (e : Event) :
  wfRefs s -> wfRefs (step over resample decodeImage s e).
Proof.
  intros Hwf. unfold step. destruct e; simpl.
  - unfold wfRefs. simpl. split; constructor.
  - destruct (image s); [|done]. by apply onMouseDown_wfRefs.
  - destruct (image s); [|done]. by apply onMouseMove_wfRefs.
  - destruct (image s); [|done]. unfold onMouseUp.
    destruct (isDrawing s); [|done]. by apply pushToHistory_wfRefs.
  - unfold updateReplacement. destruct (decide _); done.
  - unfold handleReplacementBlur. destruct (JS.index _ _).
    + destruct (decide _); [by apply pushToHistory_wfRefs|done].
    + by apply pushToHistory_wfRefs.
  - by apply removeSelection_wfRefs.
  - by apply undo_wfRefs.
  - by apply redo_wfRefs.
  - destruct (restoreDisabled s); [done|].
    destruct (handleRestore_start_frame s targetSize) as (Hh & _ & Hst & Hsel & _).
    unfold wfRefs. by rewrite Hh, Hst, Hsel.
  - destruct (pending s) as [p|]; [|done].
    destruct (handleRestore_settle_frame s p reply) as (Hh & _ & Hst & Hsel & _).
    unfold wfRefs. by rewrite Hh, Hst, Hsel.
Qed.

(** Every state the application can be in has a bounded log, a cursor in
    range and no reference out of the store. *)
Lemma reachable_inv (s : App) :
  reachable over resample decodeImage s -> histInv s /\ wfRefs s.
Proof.
  induction 1 as [|s e _ [IH1 IH2]].
  - split; [unfold histInv, HISTORY_CAPACITY; simpl; lia|].
    split; constructor.
  - split; [by apply step_histInv|by apply step_wfRefs].
Qed.

End EventLoop.

Lemma history_bounded_and_cursor_in_range_witness :
  history initialApp = [] /\ historyIndex initialApp = -1 /\
  let s := foldl applyOp initialApp
             [OpCommit [] ∅; OpCommit [] ∅; OpUndo; OpUndo; OpUndo; OpRedo; OpCommit [] ∅] in
  (length (history s) <= 50)%nat /\
  -1 <= historyIndex s <= Z.of_nat (length (history s)) - 1.
Proof.
  split; [reflexivity|]. split; [reflexivity|].
  apply (history_bounded_and_cursor_in_range initialApp); reflexivity.
Defined.

(** ** Snapshots and the live state share objects after [undo] *)

(** A commit stores new objects only: no reference of the new snapshot was
    in use before. *)
Lemma pushToHistory_copies_fresh (s : App) (a : list ref) (r : Replacements) :
  histInv s ->
  exists snap, last (history (pushToHistory s a r)) = Some snap /\
    Forall (fun l => (length (store s) <= l)%nat) (hs_selections snap).
Proof.
  intros Hinv. destruct (pushToHistory_history s a r Hinv) as [Hh _].
  eexists. split.
  - rewrite Hh. destruct (decide _); apply last_snoc.
  - simpl. apply Forall_forall. intros l Hl%elem_of_seq. lia.
Qed.

(** A gesture that begins in a well-formed state draws on its own new
    object: pointer moves after [onMouseDown] leave every snapshot as it
    was. *)
Lemma move_after_begin_keeps_log (s : App) (now : Z) (pos cur : Z * Z) :
  wfRefs s -> isProcessing s = false -> (length (selections s) < MAX_SELECTIONS)%nat ->
  logContent (onMouseMove (onMouseDown s now pos).1 cur) = logContent s.
Proof.
  intros [Hsel Hhist] Hp Hn. unfold onMouseDown. rewrite Hp.
  rewrite decide_False by lia. unfold onMouseMove. simpl.
  rewrite last_snoc. rewrite lookup_app_r by lia. rewrite Nat.sub_diag. simpl.
  unfold logContent. simpl. apply list_fmap_ext. intros k h Hk.
  unfold snapshotContent. f_equal.
  eapply Forall_lookup_1 in Hhist; [|exact Hk].
  rewrite deref_insert_notin.
  - by apply deref_extend.
  - intros Hin. unfold refsIn in Hhist. rewrite Forall_forall in Hhist.
    specialize (Hhist _ Hin). simpl in Hhist. lia.
Qed.

(** C6 fails on the code.  After two committed regions, a gesture begins and
    the pointer is released outside the canvas; [undo] then hands the array
    of the first snapshot to the live state, and the next pointer move over
    the canvas assigns to the object that snapshot holds.  The log still has
    the same two entries, but the first no longer has the content it was
    committed with. *)
Theorem snapshot_mutated_through_undo_alias :
  let s2 := runExample twoCommitted danglingThenUndo in
  reachable opaqueOver nearestSample decodeOne s2 /\
  history s2 = history twoCommitted /\
  logContent twoCommitted !! 0%nat = Some ([mkArea 1 10 10 40 40], ∅) /\
  logContent s2 !! 0%nat = Some ([mkArea 1 200 200 100 100], ∅) /\
  logContent s2 <> logContent twoCommitted.
Proof.
  cbv zeta. split.
  { apply run_reachable. apply run_reachable. constructor. }
  split; [vm_compute; reflexivity|].
  split; [vm_compute; reflexivity|].
  split; [vm_compute; reflexivity|].
  intros H. apply (f_equal (fun c => fst <$> c)) in H. vm_compute in H. discriminate H.
Qed.

(** ** SelectionStore *)



(** C8.  [onMouseDown] leaves the state as it is while a restore is in
    progress or when 10 or more regions exist; with exactly 10 regions the
    count stays 10.  Otherwise it appends exactly one new region, of zero
    width and height at the pointer position, keeps the existing regions,
    remembers the position as the start of the gesture and marks the gesture
    active. *)
Theorem onMouseDown_begins_region_or_does_nothing (s : App) (now : Z) (pos : Z * Z) :
  ((isProcessing s = true \/ (10 <= length (selections s))%nat) ->
     (onMouseDown s now pos).1 = s) /\
  ((length (selections s) = 10)%nat ->
     length (selections (onMouseDown s now pos).1) = 10%nat) /\
  (isProcessing s = false -> (length (selections s) < 10)%nat ->
     let s' := (onMouseDown s now pos).1 in
     let region := mkArea now pos.1 pos.2 0 0 in
     selections s' = selections s ++ [length (store s)] /\
     store s' = store s ++ [region] /\
     length (selections s') = S (length (selections s)) /\
     (refsIn (store s) (selections s) ->
        deref (store s') (selections s') = deref (store s) (selections s) ++ [region]) /\
     sel_w region = 0 /\ sel_h region = 0 /\
     isDrawing s' = true /\ startPos s' = pos /\
     replacements s' = replacements s /\
     history s' = history s /\ historyIndex s' = historyIndex s /\
     (onMouseDown s now pos).2 = []).
Proof.
  assert (Hnoop : (isProcessing s = true \/ (10 <= length (selections s))%nat) ->
                  (onMouseDown s now pos).1 = s).
  { intros H. unfold onMouseDown. destruct (isProcessing s) eqn:Hp; [done|].
    destruct H as [H|H]; [done|].
    unfold MAX_SELECTIONS. by rewrite decide_True by lia. }
  split; [exact Hnoop|]. split.
  - intros H. rewrite Hnoop; [done|right; lia].
  - intros Hp Hn. cbv zeta. unfold onMouseDown. rewrite Hp.
    unfold MAX_SELECTIONS. rewrite decide_False by lia. simpl.
    repeat split; try done.
    + rewrite length_app. simpl. lia.
    + intros Hwf. rewrite deref_app. rewrite deref_extend by done. f_equal.
      rewrite deref_cons. rewrite lookup_app_r by lia. by rewrite Nat.sub_diag.
Qed.

Lemma onMouseDown_begins_region_or_does_nothing_witness :
  let s := loadImage initialApp slide in
  isProcessing s = false /\ (length (selections s) < 10)%nat /\
  selections (onMouseDown s 7 (10, 10)).1 = [0%nat] /\
  store (onMouseDown s 7 (10, 10)).1 = [mkArea 7 10 10 0 0] /\
  isDrawing (onMouseDown s 7 (10, 10)).1 = true.
Proof.
  cbv zeta.
  assert (Hp : isProcessing (loadImage initialApp slide) = false) by reflexivity.
  assert (Hn : (length (selections (loadImage initialApp slide)) < 10)%nat)
    by (simpl; lia).
  split; [exact Hp|]. split; [exact Hn|].
  destruct (proj2 (proj2 (onMouseDown_begins_region_or_does_nothing
                            (loadImage initialApp slide) 7 (10, 10))) Hp Hn)
    as (Hs & Hst & _ & _ & _ & _ & Hd & _).
  split; [exact Hs|]. split; [exact Hst|exact Hd].
Defined.

(** ** RestoreOrchestrator *)







Section RestoreFacts.

Variable over : pixel -> pixel -> pixel.
Variable resample : Bitmap -> Q -> Q -> Q -> Q -> Z -> Z -> Z -> Z -> Z -> Z -> pixel.
Variable decodeImage : JS.str -> option Bitmap.

(** Painting a source pixel on transparent black leaves the source pixel. *)
Hypothesis over_blank : forall p, over p blank = p.

Lemma noImagePayload_falsy (parts : list Part) :
  noImagePayload parts -> truthy (aiResultBase64 parts) = false.
Proof.
  induction 1 as [|part parts Hp _ IH]; [done|].
  destruct part; simpl; [exact IH|exact Hp].
Qed.

(** Every failing run ends in the [catch]: the state differs from the one
    before only in that processing has ended, and one notice is raised. *)
Lemma settle_Thrown (s : App) (p : Pending) (reply : ModelReply) :
  settle over resample decodeImage p reply (store s) = Thrown ->
  handleRestore_settle over resample decodeImage s p reply
    = (setPending (setIsProcessing s false) None, [Alert NoticeRestoreFailed]).
Proof. intros H. unfold handleRestore_settle. by rewrite H. Qed.

(** C9.  When the external call fails, or the response carries no image
    payload, the restore ends with the result image as it was and everything
    else as it was except that processing has ended; exactly one failure
    notice is raised, no further call is issued and no continuation remains
    that could try again.  Across all events, the result image becomes a
    bitmap only when a pending restore receives a reply from which the
    composite is built. *)
Theorem restore_failure_commits_nothing :
  (forall (s : App) (p : Pending) (reply : ModelReply),
     reply = CallRejected \/ (exists parts, reply = Response parts /\ noImagePayload parts) ->
     let out := handleRestore_settle over resample decodeImage s p reply in
     resultImage out.1 = resultImage s /\
     out.1 = setPending (setIsProcessing s false) None /\
     out.2 = [Alert NoticeRestoreFailed] /\
     (forall r, step over resample decodeImage out.1 (EvModelReply r) = out.1)) /\
  (forall (s : App) (e : Event) (b : Bitmap),
     resultImage (step over resample decodeImage s e) = Some b ->
     resultImage s = Some b \/
     exists p reply, e = EvModelReply reply /\ pending s = Some p /\
       settle over resample decodeImage p reply (store s) = Composited b).
Proof.
  split.
  - intros s p reply Hfail. cbv zeta.
    assert (Ht : settle over resample decodeImage p reply (store s) = Thrown).
    { destruct Hfail as [->|(parts & -> & Hno)]; [done|].
      unfold settle. by rewrite (noImagePayload_falsy _ Hno). }
    rewrite (settle_Thrown _ _ _ Ht). simpl. done.
  - intros s e b. unfold step. destruct e; simpl.
    + done.
    + destruct (image s); [|by left]. unfold onMouseDown.
      destruct (isProcessing s); [by left|]. destruct (decide _); by left.
    + destruct (image s); [|by left]. unfold onMouseMove.
      destruct (isDrawing s); [|by left]. destruct (last _); [|by left].
      destruct (store s !! _); by left.
    + destruct (image s); [|by left]. unfold onMouseUp.
      destruct (isDrawing s); by left.
    + unfold updateReplacement. destruct (decide _); by left.
    + unfold handleReplacementBlur. destruct (JS.index _ _); [|by left].
      destruct (decide _); by left.
    + by left.
    + unfold undo. destruct (decide _).
      * destruct (JS.index _ _); by left.
      * destruct (decide _); by left.
    + unfold redo. destruct (decide _); [|by left].
      destruct (JS.index _ _); by left.
    + destruct (restoreDisabled s); [by left|].
      destruct (handleRestore_start_frame s targetSize) as (_ & _ & _ & _ & _ & Hr).
      rewrite Hr. by left.
    + destruct (pending s) as [p|]; [|by left].
      unfold handleRestore_settle.
      destruct (settle _ _ _ _ _ _) as [result| |] eqn:Hs; simpl; [|by left..].
      intros [= <-]. right. by exists p, reply.
Qed.

(** ** Compositor *)

Lemma drawImage9_size (cv img : Bitmap) (sx sy sw sh : Q) (dx dy dw dh : Z) :
  bm_width (drawImage9 over resample cv img sx sy sw sh dx dy dw dh) = bm_width cv /\
  bm_height (drawImage9 over resample cv img sx sy sw sh dx dy dw dh) = bm_height cv.
Proof. unfold drawImage9. by destruct (Qeq_bool sw 0 || Qeq_bool sh 0). Qed.


Lemma paste_all_size (originalImg aiImg : Bitmap) (regions : list SelectionArea) (cv : Bitmap) :
  bm_width (foldl (pasteRegion over resample originalImg aiImg) cv regions) = bm_width cv /\
  bm_height (foldl (pasteRegion over resample originalImg aiImg) cv regions) = bm_height cv.
Proof.
  revert cv. induction regions as [|r regions IH]; intros cv; simpl; [done|].
  destruct (IH (pasteRegion over resample originalImg aiImg cv r)) as [Hw Hh].
  rewrite Hw, Hh. apply drawImage9_size.
Qed.




End RestoreFacts.

Lemma restore_failure_commits_nothing_witness :
  pending awaitingModel = Some (mkPending slide [0%nat]) /\
  (CallRejected = CallRejected \/
   exists parts, CallRejected = Response parts /\ noImagePayload parts) /\
  resultImage (handle opaqueOver nearestSample decodeOne awaitingModel
                 (EvModelReply CallRejected)).1
    = resultImage awaitingModel /\
  (handle opaqueOver nearestSample decodeOne awaitingModel (EvModelReply CallRejected)).2
    = [Alert NoticeRestoreFailed].
Proof.
  assert (Hp : pending awaitingModel = Some (mkPending slide [0%nat]))
    by (vm_compute; reflexivity).
  assert (Hf : CallRejected = CallRejected \/
               exists parts, CallRejected = Response parts /\ noImagePayload parts)
    by (left; reflexivity).
  split; [exact Hp|]. split; [exact Hf|].
  destruct (proj1 (restore_failure_commits_nothing opaqueOver nearestSample decodeOne)
              awaitingModel (mkPending slide [0%nat]) CallRejected Hf)
    as (Hr & _ & He & _).
  unfold handle. rewrite Hp.
  split; [exact Hr|exact He].
Defined.


(** * Further properties of the handlers *)

(** ** History *)

Lemma pushToHistory_cursor_last (s : App) (a : list ref) (r : Replacements) :
  histInv s ->
  historyIndex (pushToHistory s a r)
    = Z.of_nat (length (history (pushToHistory s a r))) - 1.
Proof.
  intros Hinv. destruct (pushToHistory_history s a r Hinv) as [Hh Hk].
  destruct Hinv as [Hlen Hidx]. unfold HISTORY_CAPACITY in *.
  rewrite Hh. rewrite pushToHistory_eq. cbv zeta. cbn [historyIndex setHistoryIndex].
  destruct (decide (historyIndex s = 49)).
  - rewrite length_app, length_drop, Hk. simpl. lia.
  - rewrite length_app, Hk. simpl. lia.
Qed.

Lemma pushToHistory_frame (s : App) (a : list ref) (r : Replacements) :
  selections (pushToHistory s a r) = selections s /\
  replacements (pushToHistory s a r) = replacements s /\
  store (pushToHistory s a r) = store s ++ deref (store s) a /\
  isDrawing (pushToHistory s a r) = isDrawing s /\
  isProcessing (pushToHistory s a r) = isProcessing s /\
  pending (pushToHistory s a r) = pending s /\
  image (pushToHistory s a r) = image s /\
  resultImage (pushToHistory s a r) = resultImage s.
Proof. rewrite pushToHistory_eq. cbv zeta. simpl. done. Qed.

(** Committing the live state leaves its content as it was. *)
Lemma pushToHistory_live_content (s : App) (r : Replacements) (a : list ref) :
  refsIn (store s) (selections s) ->
  liveContent (pushToHistory s a r) = liveContent s.
Proof.
  intros Hwf. destruct (pushToHistory_frame s a r) as (Hs & Hr & Hst & _).
  unfold liveContent. rewrite Hs, Hr, Hst. by rewrite deref_extend.
Qed.

Lemma undo_without_snapshot (s : App) : historyIndex s < 0 -> undo s = s.
Proof.
  intros H. unfold undo. rewrite decide_False by lia. by rewrite decide_False by lia.
Qed.

Lemma iter_undo_all (n : nat) (s : App) :
  histInv s -> historyIndex s = Z.of_nat n - 1 ->
  historyIndex (Nat.iter n undo s) = -1 /\
  history (Nat.iter n undo s) = history s /\
  store (Nat.iter n undo s) = store s /\
  ((0 < n)%nat -> selections (Nat.iter n undo s) = [] /\
                  replacements (Nat.iter n undo s) = ∅).
Proof.
  revert s. induction n as [|n IH]; intros s Hinv Hi.
  - simpl. split; [lia|]. split; [done|]. split; [done|]. lia.
  - rewrite Nat.iter_succ_r.
    pose proof Hinv as [Hlen Hidx].
    destruct (undo_at_cursor s) as (Hi' & Hh & Hst); [lia|].
    destruct (IH (undo s)) as (H1 & H2 & H3 & H4); [by apply undo_histInv|lia|].
    split; [exact H1|]. split; [by rewrite H2|]. split; [by rewrite H3|].
    intros _. destruct n as [|n]; [|apply H4; lia].
    simpl. unfold undo. rewrite decide_False by lia. rewrite decide_True by lia.
    done.
Qed.

(** X1.  From any state of the log, undoing as many times as the cursor is
    above -1 ends with the cursor at -1, where a further undo does nothing;
    the log and the stored objects are untouched, and if at least one undo
    was made the live selections and replacements are empty. *)
Theorem undo_all_reaches_empty (s : App) :
  histInv s ->
  let n := Z.to_nat (historyIndex s + 1) in
  let s' := Nat.iter n undo s in
  historyIndex s' = -1 /\ undo s' = s' /\ undoDisabled s' = true /\
  history s' = history s /\ store s' = store s /\
  (0 <= historyIndex s -> selections s' = [] /\ replacements s' = ∅).
Proof.
  intros Hinv. cbv zeta. pose proof Hinv as [Hlen Hidx].
  destruct (iter_undo_all (Z.to_nat (historyIndex s + 1)) s Hinv) as (H1 & H2 & H3 & H4);
    [lia|].
  split; [exact H1|]. split; [apply undo_without_snapshot; lia|].
  split; [unfold undoDisabled; rewrite H1; done|].
  split; [exact H2|]. split; [exact H3|].
  intros Hpos. apply H4. lia.
Qed.

Lemma undo_all_reaches_empty_witness :
  histInv twoCommitted /\
  historyIndex twoCommitted = 1 /\
  historyIndex (Nat.iter 2 undo twoCommitted) = -1 /\
  selections (Nat.iter 2 undo twoCommitted) = [] /\
  history (Nat.iter 2 undo twoCommitted) = history twoCommitted.
Proof.
  assert (E1 : historyIndex twoCommitted = 1) by (vm_compute; reflexivity).
  assert (E2 : length (history twoCommitted) = 2%nat) by (vm_compute; reflexivity).
  assert (En : Z.to_nat (historyIndex twoCommitted + 1) = 2%nat)
    by (rewrite E1; reflexivity).
  assert (H1 : histInv twoCommitted).
  { unfold histInv, HISTORY_CAPACITY. rewrite E1, E2. lia. }
  split; [exact H1|]. split; [exact E1|].
  destruct (undo_all_reaches_empty twoCommitted H1) as (Hi & _ & _ & Hh & _ & He).
  rewrite En in Hi, Hh, He.
  split; [exact Hi|]. split; [apply He; lia|exact Hh].
Defined.

(** X2.  Redo followed by undo, when the redo is legal, gives back the live
    selections and replacements, the cursor and the log, provided the live
    state was the snapshot under the cursor or, with the cursor at -1, was
    empty. *)
Theorem redo_then_undo_returns (s : App) :
  histInv s ->
  redoDisabled s = false ->
  committed s \/ (historyIndex s = -1 /\ selections s = [] /\ replacements s = ∅) ->
  liveContent (undo (redo s)) = liveContent s /\
  historyIndex (undo (redo s)) = historyIndex s /\
  history (undo (redo s)) = history s.
Proof.
  intros [Hlen Hidx] Hredo Hlive.
  unfold redoDisabled in Hredo. apply bool_decide_eq_false in Hredo.
  destruct (index_is_Some (history s) (historyIndex s + 1)) as [nx Hnx]; [lia|].
  unfold redo. rewrite decide_True by lia. rewrite Hnx.
  unfold undo. cbn [historyIndex setHistoryIndex history setReplacements setSelections].
  destruct Hlive as [(h & Hh & Hsync)|(Hm & Hs & Hr)].
  - pose proof (index_Some_range _ _ _ Hh) as Hrange.
    rewrite decide_True by lia.
    replace (historyIndex s + 1 - 1) with (historyIndex s) by lia.
    rewrite Hh. unfold liveContent. simpl.
    unfold liveContent, snapshotContent in Hsync. rewrite Hsync.
    split; [done|]. split; [lia|done].
  - rewrite decide_False by lia. rewrite decide_True by lia.
    unfold liveContent. simpl. rewrite Hs, Hr. split; [done|]. split; [lia|done].
Qed.

Lemma redo_then_undo_returns_witness :
  histInv (undo twoCommitted) /\
  redoDisabled (undo twoCommitted) = false /\
  committed (undo twoCommitted) /\
  liveContent (undo (redo (undo twoCommitted))) = liveContent (undo twoCommitted).
Proof.
  assert (E1 : historyIndex (undo twoCommitted) = 0) by (vm_compute; reflexivity).
  assert (E2 : length (history (undo twoCommitted)) = 2%nat) by (vm_compute; reflexivity).
  assert (H1 : histInv (undo twoCommitted)).
  { unfold histInv, HISTORY_CAPACITY. rewrite E1, E2. lia. }
  assert (H2 : redoDisabled (undo twoCommitted) = false) by (vm_compute; reflexivity).
  assert (H3 : committed (undo twoCommitted)).
  { exists (mkHist [1%nat] ∅). split; vm_compute; reflexivity. }
  split; [exact H1|]. split; [exact H2|]. split; [exact H3|].
  exact (proj1 (redo_then_undo_returns (undo twoCommitted) H1 H2 (or_introl H3))).
Defined.

(** ** Commit points: [onMouseUp], [removeSelection], [handleReplacementBlur] *)

Lemma deref_filter_id (st : Store) (a : list ref) (id : Z) :
  refsIn st a ->
  deref st (filter (idDiffers st id) a)
    = filter (fun obj => sel_id obj <> id) (deref st a).
Proof.
  unfold refsIn. induction 1 as [|l a Hl _ IH]; [done|].
  destruct (lookup_lt_is_Some_2 st l Hl) as [obj Hobj].
  rewrite filter_cons, (deref_cons_Some _ _ _ _ Hobj), filter_cons.
  unfold idDiffers at 1. 
  destruct (decide (match st !! l with Some o => sel_id o <> id | None => False end))
    as [Hd|Hd]; rewrite Hobj in Hd.
  - rewrite decide_True by done. rewrite (deref_cons_Some _ _ _ _ Hobj). by rewrite IH.
  - by rewrite decide_False by done.
Qed.

Lemma refsIn_filter (st : Store) (a : list ref) (P : ref -> Prop)
    `{forall l, Decision (P l)} :
  refsIn st a -> refsIn st (filter P a).
Proof.
  unfold refsIn. rewrite !Forall_forall. intros Ha l [_ Hl]%list_elem_of_filter.
  by apply Ha.
Qed.

(** X3.  A pointer release outside a gesture changes nothing.  A release
    that ends a gesture clears the gesture flag and appends to the log, at
    the cursor, a snapshot equal to the live selections and replacements,
    which stay as they are; redo is then disabled.  A click without any
    pointer move thus commits a region of zero width and height. *)
Theorem onMouseUp_commits_gesture (s : App) :
  histInv s -> wfRefs s ->
  (isDrawing s = false -> onMouseUp s = s) /\
  (isDrawing s = true ->
     let s' := onMouseUp s in
     isDrawing s' = false /\
     liveContent s' = liveContent s /\
     committed s' /\
     historyIndex s' = Z.of_nat (length (history s')) - 1 /\
     redoDisabled s' = true).
Proof.
  intros Hinv [Hsel Hhist]. split.
  - intros Hd. unfold onMouseUp. by rewrite Hd.
  - intros Hd. cbv zeta. unfold onMouseUp. rewrite Hd.
    set (s0 := setIsDrawing s false).
    assert (Hinv0 : histInv s0) by exact Hinv.
    assert (Hsel0 : refsIn (store s0) (selections s0)) by exact Hsel.
    change (selections s) with (selections s0).
    change (replacements s) with (replacements s0).
    pose proof (pushToHistory_cursor_last s0 (selections s0) (replacements s0) Hinv0) as Hc.
    split; [by rewrite (proj1 (proj2 (proj2 (proj2 (pushToHistory_frame s0 _ _)))))|].
    split; [change (liveContent s) with (liveContent s0);
            by apply pushToHistory_live_content|].
    split; [by apply pushToHistory_live_committed|].
    split; [exact Hc|].
    unfold redoDisabled. apply bool_decide_eq_true. lia.
Qed.

Lemma onMouseUp_commits_gesture_witness :
  let s := (onMouseDown (loadImage initialApp slide) 7 (10, 10)).1 in
  histInv s /\ wfRefs s /\ isDrawing s = true /\
  liveContent (onMouseUp s) = ([mkArea 7 10 10 0 0], ∅) /\
  committed (onMouseUp s).
Proof.
  cbv zeta.
  assert (H1 : histInv (onMouseDown (loadImage initialApp slide) 7 (10, 10)).1).
  { unfold histInv, HISTORY_CAPACITY. simpl. lia. }
  assert (H2 : wfRefs (onMouseDown (loadImage initialApp slide) 7 (10, 10)).1).
  { unfold wfRefs, refsIn. vm_compute. repeat constructor. }
  assert (H3 : isDrawing (onMouseDown (loadImage initialApp slide) 7 (10, 10)).1 = true)
    by reflexivity.
  split; [exact H1|]. split; [exact H2|]. split; [exact H3|].
  destruct (proj2 (onMouseUp_commits_gesture _ H1 H2) H3) as (_ & Hl & Hc & _).
  split; [|exact Hc]. rewrite Hl. vm_compute. reflexivity.
Defined.

(** X4.  Removing by id leaves, in order, exactly the live regions whose id
    differs (every region carrying the id goes), deletes the id's
    replacement text and keeps the others, and commits the outcome: the
    snapshot under the cursor equals the new live state and redo is
    disabled. *)
Theorem removeSelection_removes_and_commits (s : App) (id : Z) :
  histInv s -> wfRefs s ->
  let s' := removeSelection s id in
  (liveContent s').1 = filter (fun obj => sel_id obj <> id) (liveContent s).1 /\
  (forall obj, obj ∈ (liveContent s').1 -> sel_id obj <> id) /\
  replacements s' !! id = None /\
  (forall id', id' <> id -> replacements s' !! id' = replacements s !! id') /\
  committed s' /\
  redoDisabled s' = true.
Proof.
  intros Hinv [Hsel Hhist]. cbv zeta. unfold removeSelection.
  set (newSelections := filter (idDiffers (store s) id) (selections s)).
  set (newReplacements := delete id (replacements s)).
  set (s0 := setReplacements (setSelections s newSelections) newReplacements).
  assert (Hinv0 : histInv s0) by exact Hinv.
  assert (Hsel0 : refsIn (store s0) (selections s0)).
  { unfold s0. simpl. by apply refsIn_filter. }
  change newSelections with (selections s0).
  change newReplacements with (replacements s0).
  pose proof (pushToHistory_cursor_last s0 (selections s0) (replacements s0) Hinv0) as Hc.
  assert (Hredo : redoDisabled (pushToHistory s0 (selections s0) (replacements s0)) = true).
  { unfold redoDisabled. apply bool_decide_eq_true. lia. }
  pose proof (pushToHistory_live_committed s0 Hinv0 Hsel0) as Hcom.
  assert (Hlive : liveContent (pushToHistory s0 (selections s0) (replacements s0))
                  = (filter (fun obj => sel_id obj <> id) (deref (store s) (selections s)),
                     delete id (replacements s))).
  { rewrite pushToHistory_live_content by done. unfold liveContent, s0. simpl.
    unfold newSelections. by rewrite deref_filter_id. }
  destruct (pushToHistory_frame s0 (selections s0) (replacements s0)) as (_ & Hrep & _).
  rewrite Hlive, Hrep. cbn [fst].
  change (replacements s0) with (delete id (replacements s)).
  split; [done|]. split.
  { intros obj [Hobj _]%list_elem_of_filter. exact Hobj. }
  split; [apply lookup_delete_eq|].
  split; [intros id' Hne; by apply lookup_delete_ne|].
  split; [exact Hcom|exact Hredo].
Qed.

Lemma removeSelection_removes_and_commits_witness :
  histInv twoCommitted /\ wfRefs twoCommitted /\
  (liveContent twoCommitted).1 = [mkArea 1 10 10 40 40; mkArea 2 100 100 50 50] /\
  (liveContent (removeSelection twoCommitted 1)).1 = [mkArea 2 100 100 50 50] /\
  committed (removeSelection twoCommitted 1).
Proof.
  assert (E1 : historyIndex twoCommitted = 1) by (vm_compute; reflexivity).
  assert (E2 : length (history twoCommitted) = 2%nat) by (vm_compute; reflexivity).
  assert (E3 : (liveContent twoCommitted).1
               = [mkArea 1 10 10 40 40; mkArea 2 100 100 50 50])
    by (vm_compute; reflexivity).
  assert (H1 : histInv twoCommitted).
  { unfold histInv, HISTORY_CAPACITY. rewrite E1, E2. lia. }
  assert (H2 : wfRefs twoCommitted).
  { unfold wfRefs, refsIn. vm_compute. repeat constructor. }
  split; [exact H1|]. split; [exact H2|]. split; [exact E3|].
  destruct (removeSelection_removes_and_commits twoCommitted 1 H1 H2)
    as (Hl & _ & _ & _ & Hc & _).
  split; [|exact Hc]. rewrite Hl, E3. vm_compute. reflexivity.
Defined.

(** X5.  Losing focus on a text field commits the live state exactly when
    no snapshot is under the cursor or that snapshot's text for the field
    differs from the live one; texts of other fields and the regions are
    not compared.  A second blur right after is always without effect. *)
Theorem handleReplacementBlur_commits_once (s : App) (id : Z) :
  histInv s -> wfRefs s ->
  (forall h, JS.index (history s) (historyIndex s) = Some h ->
     hs_replacements h !! id = replacements s !! id ->
     handleReplacementBlur s id = s) /\
  ((JS.index (history s) (historyIndex s) = None \/
    exists h, JS.index (history s) (historyIndex s) = Some h /\
              hs_replacements h !! id <> replacements s !! id) ->
     handleReplacementBlur s id = pushToHistory s (selections s) (replacements s) /\
     committed (handleReplacementBlur s id)) /\
  handleReplacementBlur (handleReplacementBlur s id) id = handleReplacementBlur s id.
Proof.
  intros Hinv [Hsel Hhist].
  assert (Hnoop : forall (u : App) h, JS.index (history u) (historyIndex u) = Some h ->
            hs_replacements h !! id = replacements u !! id ->
            handleReplacementBlur u id = u).
  { intros u h Hh He. unfold handleReplacementBlur. rewrite Hh.
    by rewrite decide_False by (intros Hn; by apply Hn). }
  assert (Hagain : handleReplacementBlur
                     (pushToHistory s (selections s) (replacements s)) id
                   = pushToHistory s (selections s) (replacements s)).
  { destruct (pushToHistory_live_committed s Hinv Hsel) as (h & Hh & Hc).
    apply (Hnoop _ h Hh). unfold snapshotContent, liveContent in Hc.
    injection Hc as _ Hc. by rewrite Hc. }
  split; [apply Hnoop|]. split.
  - intros Hcase. unfold handleReplacementBlur.
    destruct Hcase as [Hn|(h & Hh & Hne)].
    + rewrite Hn. split; [done|]. by apply pushToHistory_live_committed.
    + rewrite Hh. rewrite decide_True by done.
      split; [done|]. by apply pushToHistory_live_committed.
  - assert (Hcases : handleReplacementBlur s id
                     = pushToHistory s (selections s) (replacements s)
                     \/ (handleReplacementBlur s id = s /\
                         exists h, JS.index (history s) (historyIndex s) = Some h /\
                                   hs_replacements h !! id = replacements s !! id)).
    { unfold handleReplacementBlur.
      destruct (JS.index (history s) (historyIndex s)) as [h|] eqn:Hh; [|by left].
      destruct (decide (hs_replacements h !! id <> replacements s !! id)) as [Hne|He];
        [by left|].
      right. split; [done|]. exists h. split; [done|].
      by destruct (decide (hs_replacements h !! id = replacements s !! id)). }
    destruct Hcases as [->|[-> (h & Hh & He)]]; [exact Hagain|].
    by apply (Hnoop s h).
Qed.

Lemma handleReplacementBlur_commits_once_witness :
  histInv zeroAreaWithText /\ wfRefs zeroAreaWithText /\
  (exists h, JS.index (history zeroAreaWithText) (historyIndex zeroAreaWithText) = Some h /\
             hs_replacements h !! 7 <> replacements zeroAreaWithText !! 7) /\
  length (history (handleReplacementBlur zeroAreaWithText 7)) = 3%nat /\
  committed (handleReplacementBlur zeroAreaWithText 7).
Proof.
  assert (E1 : historyIndex zeroAreaWithText = 1) by (vm_compute; reflexivity).
  assert (E2 : length (history zeroAreaWithText) = 2%nat) by (vm_compute; reflexivity).
  assert (H1 : histInv zeroAreaWithText).
  { unfold histInv, HISTORY_CAPACITY. rewrite E1, E2. lia. }
  assert (H2 : wfRefs zeroAreaWithText).
  { unfold wfRefs, refsIn. vm_compute. repeat constructor. }
  assert (H3 : exists h,
             JS.index (history zeroAreaWithText) (historyIndex zeroAreaWithText) = Some h /\
             hs_replacements h !! 7 <> replacements zeroAreaWithText !! 7).
  { exists (mkHist [3; 4]%nat ∅). split; [vm_compute; reflexivity|].
    vm_compute. intros H. discriminate H. }
  split; [exact H1|]. split; [exact H2|]. split; [exact H3|].
  destruct (proj1 (proj2 (handleReplacementBlur_commits_once zeroAreaWithText 7 H1 H2))
              (or_intror H3)) as [He Hc].
  split; [|exact Hc]. rewrite He. vm_compute. reflexivity.
Defined.

(** ** Invariants over all events *)

Lemma deref_length_le (st : Store) (a : list ref) :
  (length (deref st a) <= length a)%nat.
Proof.
  induction a as [|l a IH]; [done|].
  rewrite deref_cons. destruct (st !! l); simpl; lia.
Qed.

Lemma pushToHistory_withinLimits (s : App) (a : list ref) (r : Replacements) :
  withinLimits s -> (length a <= MAX_SELECTIONS)%nat -> textsWithin r ->
  withinLimits (pushToHistory s a r).
Proof.
  intros (Hn & Ht & Hh) Ha Hr.
  destruct (pushToHistory_frame s a r) as (Hs & Hrep & _).
  unfold withinLimits. rewrite Hs, Hrep. split; [done|]. split; [done|].
  rewrite pushToHistory_eq. cbv zeta. cbn [history setHistoryIndex setHistory].
  assert (Hall : Forall (fun h => (length (hs_selections h) <= MAX_SELECTIONS)%nat /\
                                  textsWithin (hs_replacements h))
            (JS.slice0 (history s) (historyIndex s + 1)
               ++ [mkHist (seq (length (store s)) (length (deref (store s) a))) r])).
  { apply Forall_app. split.
    - unfold JS.slice0. destruct (decide _); by apply Forall_take.
    - constructor; [|constructor]. simpl. rewrite length_seq.
      pose proof (deref_length_le (store s) a). split; [lia|done]. }
  destruct (decide _); [by apply Forall_drop|done].
Qed.

Section Invariants.

Variable over : pixel -> pixel -> pixel.
Variable resample : Bitmap -> Q -> Q -> Q -> Q -> Z -> Z -> Z -> Z -> Z -> Z -> pixel.
Variable decodeImage : JS.str -> option Bitmap.

Local Abbreviation step' := (step over resample decodeImage).
Local Abbreviation run' := (run over resample decodeImage).
Local Abbreviation handle' := (handle over resample decodeImage).
Local Abbreviation reachable' := (reachable over resample decodeImage).

Lemma step_withinLimits (s : App) (e : Event) :
  withinLimits s -> withinLimits (step' s e).
Proof.
  intros Hl. pose proof Hl as (Hn & Ht & Hh). unfold step. destruct e; simpl.
  - unfold withinLimits, textsWithin. simpl. split; [lia|].
    split; [apply map_Forall_empty|constructor].
  - destruct (image s); [|done]. unfold onMouseDown.
    destruct (isProcessing s); [done|]. destruct (decide _); [done|].
    unfold withinLimits. simpl. rewrite length_app. simpl.
    split; [lia|done].
  - destruct (image s); [|done]. unfold onMouseMove.
    destruct (isDrawing s); [|done]. destruct (last _); [|done].
    destruct (store s !! _); done.
  - destruct (image s); [|done]. unfold onMouseUp.
    destruct (isDrawing s); [|done]. by apply pushToHistory_withinLimits.
  - unfold updateReplacement. destruct (decide _) as [|Hlen]; [done|].
    unfold withinLimits. simpl. split; [done|]. split; [|done].
    apply map_Forall_insert_2; [lia|done].
  - unfold handleReplacementBlur. destruct (JS.index _ _).
    + destruct (decide _); [by apply pushToHistory_withinLimits|done].
    + by apply pushToHistory_withinLimits.
  - unfold removeSelection.
    assert (Hf : (length (filter (idDiffers (store s) id) (selections s))
                  <= MAX_SELECTIONS)%nat).
    { pose proof (length_filter (idDiffers (store s) id) (selections s)). lia. }
    assert (Hd : textsWithin (delete id (replacements s))).
    { unfold textsWithin. by apply map_Forall_delete. }
    apply pushToHistory_withinLimits; [|done..].
    unfold withinLimits. simpl. done.
  - unfold undo. destruct (decide _).
    + destruct (JS.index _ _) as [p|] eqn:Hp; [|done].
      unfold JS.index in Hp. destruct (decide _); [|done].
      eapply Forall_lookup_1 in Hp; [|exact Hh]. destruct Hp as [Hp1 Hp2].
      unfold withinLimits. simpl. done.
    + destruct (decide _); [|done]. unfold withinLimits, textsWithin. simpl.
      split; [lia|]. split; [apply map_Forall_empty|done].
  - unfold redo. destruct (decide _); [|done].
    destruct (JS.index _ _) as [p|] eqn:Hp; [|done].
    unfold JS.index in Hp. destruct (decide _); [|done].
    eapply Forall_lookup_1 in Hp; [|exact Hh]. destruct Hp as [Hp1 Hp2].
    unfold withinLimits. simpl. done.
  - destruct (restoreDisabled s); [done|].
    destruct (handleRestore_start_frame s targetSize) as (H1 & _ & _ & H2 & H3 & _).
    unfold withinLimits. by rewrite H1, H2, H3.
  - destruct (pending s) as [p|]; [|done].
    destruct (handleRestore_settle_frame over resample decodeImage s p reply)
      as (H1 & _ & _ & H2 & H3).
    unfold withinLimits. by rewrite H1, H2, H3.
Qed.

(** X6.  In every state the application reaches, the live state and every
    snapshot of the log hold at most 10 regions and no replacement text
    longer than 300 code units; undo and redo cannot bring back more. *)
Theorem reachable_within_limits (s : App) :
  reachable' s ->
  (length (selections s) <= 10)%nat /\
  (forall id t, replacements s !! id = Some t -> (length t <= 300)%nat) /\
  (forall h, h ∈ history s ->
     (length (hs_selections h) <= 10)%nat /\
     forall id t, hs_replacements h !! id = Some t -> (length t <= 300)%nat).
Proof.
  intros Hreach.
  assert (Hl : withinLimits s).
  { induction Hreach as [|s e _ IH]; [|by apply step_withinLimits].
    unfold withinLimits, textsWithin. simpl. split; [lia|].
    split; [apply map_Forall_empty|constructor]. }
  destruct Hl as (Hn & Ht & Hh). split; [exact Hn|]. split.
  - intros id t Hid. exact (Ht id t Hid).
  - intros h Hin. rewrite Forall_forall in Hh. destruct (Hh h Hin) as [H1 H2].
    split; [exact H1|]. intros id t Hid. exact (H2 id t Hid).
Qed.

(** X7.  In every state the application reaches, the log holds at most 50
    snapshots, the cursor lies between -1 and the last index, and every
    reference of the live array and of every snapshot points to an object
    of the store. *)
Theorem reachable_log_and_references (s : App) :
  reachable' s ->
  (length (history s) <= 50)%nat /\
  -1 <= historyIndex s <= Z.of_nat (length (history s)) - 1 /\
  (forall l, l ∈ selections s -> is_Some (store s !! l)) /\
  (forall h l, h ∈ history s -> l ∈ hs_selections h -> is_Some (store s !! l)).
Proof.
  intros Hreach.
  destruct (reachable_inv over resample decodeImage s Hreach) as [[H1 H2] [H3 H4]].
  split; [exact H1|]. split; [exact H2|]. split.
  - intros l Hl. unfold refsIn in H3. rewrite Forall_forall in H3.
    apply lookup_lt_is_Some_2. by apply H3.
  - intros h l Hh Hl. rewrite Forall_forall in H4. specialize (H4 h Hh).
    unfold refsIn in H4. rewrite Forall_forall in H4.
    apply lookup_lt_is_Some_2. by apply H4.
Qed.

End Invariants.

Lemma reachable_within_limits_witness :
  reachable opaqueOver nearestSample decodeOne zeroAreaWithText /\
  (length (selections zeroAreaWithText) <= 10)%nat /\
  (forall id t, replacements zeroAreaWithText !! id = Some t -> (length t <= 300)%nat).
Proof.
  assert (Hr : reachable opaqueOver nearestSample decodeOne zeroAreaWithText)
    by (apply run_reachable; constructor).
  split; [exact Hr|].
  destruct (reachable_within_limits opaqueOver nearestSample decodeOne _ Hr) as (H1 & H2 & _).
  split; [exact H1|exact H2].
Defined.

Lemma reachable_log_and_references_witness :
  reachable opaqueOver nearestSample decodeOne twoCommitted /\
  (length (history twoCommitted) <= 50)%nat /\
  -1 <= historyIndex twoCommitted <= Z.of_nat (length (history twoCommitted)) - 1.
Proof.
  assert (Hr : reachable opaqueOver nearestSample decodeOne twoCommitted)
    by (apply run_reachable; constructor).
  split; [exact Hr|].
  destruct (reachable_log_and_references opaqueOver nearestSample decodeOne _ Hr)
    as (H1 & H2 & _).
  split; [exact H1|exact H2].
Defined.

(** ** Snapshots are left alone as long as nothing is undone or redone *)

Lemma pushToHistory_Forall (P : HistoryState -> Prop) (s : App) (a : list ref)
    (r : Replacements) :
  Forall P (history s) ->
  P (mkHist (seq (length (store s)) (length (deref (store s) a))) r) ->
  Forall P (history (pushToHistory s a r)).
Proof.
  intros Hold Hnew. rewrite pushToHistory_eq. cbv zeta.
  cbn [history setHistoryIndex setHistory].
  assert (Hall : Forall P (JS.slice0 (history s) (historyIndex s + 1)
            ++ [mkHist (seq (length (store s)) (length (deref (store s) a))) r])).
  { apply Forall_app. split; [|by repeat constructor].
    unfold JS.slice0. destruct (decide _); by apply Forall_take. }
  destruct (decide _); [by apply Forall_drop|done].
Qed.

Lemma apartFrom_push (s : App) (a' : list ref) (r : Replacements) (a : list ref) :
  apartFrom (store s) (selections s) a ->
  deref (store (pushToHistory s a' r)) a = deref (store s) a /\
  apartFrom (store (pushToHistory s a' r)) (selections (pushToHistory s a' r)) a.
Proof.
  intros [Hin Hdis]. destruct (pushToHistory_frame s a' r) as (Hs & _ & Hst & _).
  rewrite Hs, Hst. split; [by apply deref_extend|].
  split; [by apply refsIn_extend|done].
Qed.

Section Aliasing.

Variable over : pixel -> pixel -> pixel.
Variable resample : Bitmap -> Q -> Q -> Q -> Q -> Z -> Z -> Z -> Z -> Z -> Z -> pixel.
Variable decodeImage : JS.str -> option Bitmap.

Local Abbreviation step' := (step over resample decodeImage).
Local Abbreviation run' := (run over resample decodeImage).

(** An array that shares nothing with the live array keeps its content, and
    stays apart, through every event but [undo] and [redo]. *)
Lemma step_keeps_apart (s : App) (e : Event) (a : list ref) :
  apartFrom (store s) (selections s) a -> isTimeTravel e = false ->
  deref (store (step' s e)) a = deref (store s) a /\
  apartFrom (store (step' s e)) (selections (step' s e)) a.
Proof.
  intros Hap Hne. pose proof Hap as [Hin Hdis]. unfold step.
  destruct e; simpl; try discriminate Hne.
  - split; [done|]. split; [done|]. intros l Hl. by apply elem_of_nil in Hl.
  - destruct (image s); [|done]. unfold onMouseDown.
    destruct (isProcessing s); [done|]. destruct (decide _); [done|]. simpl.
    split; [by apply deref_extend|]. split; [by apply refsIn_extend|].
    intros l [Hl|Hl%list_elem_of_singleton]%elem_of_app; [by apply Hdis|].
    subst l. intros Hc. unfold refsIn in Hin. rewrite Forall_forall in Hin.
    specialize (Hin _ Hc). simpl in Hin. lia.
  - destruct (image s); [|done]. unfold onMouseMove.
    destruct (isDrawing s); [|done].
    destruct (last (selections s)) as [l|] eqn:Hl; [|done].
    destruct (store s !! l); [|done]. simpl.
    apply last_Some_elem_of in Hl.
    split; [apply deref_insert_notin; by apply Hdis|].
    split; [by apply refsIn_insert|done].
  - destruct (image s); [|done]. unfold onMouseUp.
    destruct (isDrawing s); [|done].
    by apply (apartFrom_push (setIsDrawing s false)).
  - unfold updateReplacement. destruct (decide _); done.
  - unfold handleReplacementBlur. destruct (JS.index _ _).
    + destruct (decide _); [by apply apartFrom_push|done].
    + by apply apartFrom_push.
  - split; [by apply deref_extend|]. split; [by apply refsIn_extend|].
    intros l [_ Hl]%list_elem_of_filter. by apply Hdis.
  - destruct (restoreDisabled s); [done|].
    destruct (handleRestore_start_frame s targetSize) as (_ & _ & Hst & Hsel & _).
    by rewrite Hst, Hsel.
  - destruct (pending s) as [p|]; [|done].
    destruct (handleRestore_settle_frame over resample decodeImage s p reply)
      as (_ & _ & Hst & Hsel & _).
    by rewrite Hst, Hsel.
Qed.

Lemma run_keeps_apart (es : list Event) (s : App) (a : list ref) :
  apartFrom (store s) (selections s) a ->
  Forall (fun e => isTimeTravel e = false) es ->
  deref (store (run' s es)) a = deref (store s) a.
Proof.
  revert s. induction es as [|e es IH]; intros s Hap Hes; [done|].
  apply Forall_cons in Hes as [He Hes]. simpl.
  destruct (step_keeps_apart s e a Hap He) as [Hd Hap'].
  rewrite <- Hd. by apply IH.
Qed.

(** The live array shares nothing with the log as long as nothing is undone
    or redone. *)
Lemma step_aliasFree (s : App) (e : Event) :
  wfRefs s -> aliasFree s -> isTimeTravel e = false -> aliasFree (step' s e).
Proof.
  intros [Hsel Hhist] Hfree Hne.
  assert (Hold : Forall (fun h => forall l, l ∈ selections (step' s e) ->
                                            l ∉ hs_selections h) (history s)).
  { apply Forall_forall. intros h Hh l Hl.
    assert (Hap : apartFrom (store s) (selections s) (hs_selections h)).
    { unfold aliasFree in Hfree. rewrite Forall_forall in Hfree, Hhist.
      split; [by apply Hhist|by apply Hfree]. }
    destruct (step_keeps_apart s e _ Hap Hne) as [_ [_ Hd]]. by apply Hd. }
  assert (Hfresh : forall (u : App) (a : list ref) (r : Replacements),
            refsIn (store u) (selections u) ->
            forall l, l ∈ selections (pushToHistory u a r) ->
                      l ∉ hs_selections
                            (mkHist (seq (length (store u)) (length (deref (store u) a))) r)).
  { intros u a r Hu l Hl. rewrite (proj1 (pushToHistory_frame u a r)) in Hl.
    unfold refsIn in Hu. rewrite Forall_forall in Hu. specialize (Hu l Hl).
    simpl in *. intros Hc%elem_of_seq. lia. }
  unfold aliasFree. revert Hold. unfold step.
  destruct e; simpl; try discriminate Hne; intros Hold.
  - constructor.
  - destruct (image s); [|done]. revert Hold. unfold onMouseDown.
    destruct (isProcessing s); [done|]. destruct (decide _); done.
  - destruct (image s); [|done]. revert Hold. unfold onMouseMove.
    destruct (isDrawing s); [|done]. destruct (last _); [|done].
    destruct (store s !! _); done.
  - destruct (image s); [|done]. revert Hold. unfold onMouseUp.
    destruct (isDrawing s); [|done]. intros Hold.
    apply pushToHistory_Forall; [exact Hold|]. by apply (Hfresh (setIsDrawing s false)).
  - revert Hold. unfold updateReplacement. destruct (decide _); done.
  - revert Hold. unfold handleReplacementBlur. destruct (JS.index _ _).
    + destruct (decide _); [|done]. intros Hold.
      apply pushToHistory_Forall; [exact Hold|]. by apply Hfresh.
    + intros Hold. apply pushToHistory_Forall; [exact Hold|]. by apply Hfresh.
  - revert Hold. unfold removeSelection.
    set (s0 := setReplacements
                 (setSelections s (filter (idDiffers (store s) id) (selections s)))
                 (delete id (replacements s))).
    intros Hold. apply pushToHistory_Forall; [exact Hold|].
    apply (Hfresh s0 (selections s0) (replacements s0)). simpl.
    by apply refsIn_filter.
  - revert Hold. destruct (restoreDisabled s); [done|].
    destruct (handleRestore_start_frame s targetSize) as (Hh & _ & _ & _).
    by rewrite Hh.
  - revert Hold. destruct (pending s) as [p|]; [|done].
    destruct (handleRestore_settle_frame over resample decodeImage s p reply)
      as (Hh & _).
    by rewrite Hh.
Qed.

Lemma run_aliasFree (es : list Event) (s : App) :
  wfRefs s -> aliasFree s -> Forall (fun e => isTimeTravel e = false) es ->
  wfRefs (run' s es) /\ aliasFree (run' s es).
Proof.
  revert s. induction es as [|e es IH]; intros s Hwf Hfree Hes; [done|].
  apply Forall_cons in Hes as [He Hes]. simpl.
  apply IH; [by apply step_wfRefs|by apply step_aliasFree|done].
Qed.

(** X8.  Along a run of events, from the start of the application, in which
    nothing is undone or redone, every snapshot keeps the content it was
    committed with: whatever is in the log after a first part of the run
    reads the same after the rest of it. *)
Theorem snapshots_keep_content_without_undo_redo (es1 es2 : list Event) :
  Forall (fun e => isTimeTravel e = false) (es1 ++ es2) ->
  forall h, h ∈ history (run' initialApp es1) ->
    snapshotContent (store (run' initialApp (es1 ++ es2))) h
      = snapshotContent (store (run' initialApp es1)) h.
Proof.
  intros [H1 H2]%Forall_app h Hh.
  assert (Hinit : wfRefs initialApp /\ aliasFree initialApp).
  { split; [split; constructor|constructor]. }
  destruct (run_aliasFree es1 initialApp (proj1 Hinit) (proj2 Hinit) H1) as [[Hsel Hhist] Hfree].
  unfold run. rewrite foldl_app. fold (run' initialApp es1).
  fold (run' (run' initialApp es1) es2).
  unfold snapshotContent. f_equal. apply run_keeps_apart; [|done].
  unfold aliasFree in Hfree. rewrite Forall_forall in Hfree, Hhist.
  split; [by apply Hhist|by apply Hfree].
Qed.

End Aliasing.

Lemma snapshots_keep_content_without_undo_redo_witness :
  let es1 := [EvLoadImage slide; EvMouseDown 1 (10, 10); EvMouseMove (50, 50); EvMouseUp] in
  let es2 := [EvMouseDown 2 (100, 100); EvMouseMove (150, 150); EvMouseUp;
              EvRemoveSelection 1] in
  Forall (fun e => isTimeTravel e = false) (es1 ++ es2) /\
  mkHist [1%nat] ∅ ∈ history (run opaqueOver nearestSample decodeOne initialApp es1) /\
  snapshotContent
    (store (run opaqueOver nearestSample decodeOne initialApp (es1 ++ es2)))
    (mkHist [1%nat] ∅)
    = ([mkArea 1 10 10 40 40], ∅).
Proof.
  cbv zeta.
  assert (Hf : Forall (fun e => isTimeTravel e = false)
                 ([EvLoadImage slide; EvMouseDown 1 (10, 10); EvMouseMove (50, 50);
                   EvMouseUp]
                  ++ [EvMouseDown 2 (100, 100); EvMouseMove (150, 150); EvMouseUp;
                      EvRemoveSelection 1])) by (repeat constructor).
  assert (E : history (run opaqueOver nearestSample decodeOne initialApp
                         [EvLoadImage slide; EvMouseDown 1 (10, 10);
                          EvMouseMove (50, 50); EvMouseUp]) = [mkHist [1%nat] ∅])
    by (vm_compute; reflexivity).
  assert (Hh : mkHist [1%nat] ∅
               ∈ history (run opaqueOver nearestSample decodeOne initialApp
                            [EvLoadImage slide; EvMouseDown 1 (10, 10);
                             EvMouseMove (50, 50); EvMouseUp])).
  { rewrite E. apply list_elem_of_here. }
  split; [exact Hf|]. split; [exact Hh|].
  rewrite (snapshots_keep_content_without_undo_redo opaqueOver nearestSample decodeOne
             _ _ Hf _ Hh).
  vm_compute. reflexivity.
Defined.

(** ** The restore in flight *)


Lemma aiResultBase64_skips_text (texts rest : list Part) (d : option JS.str) :
  Forall (fun part => exists t, part = TextPart t) texts ->
  aiResultBase64 (texts ++ InlinePart d :: rest) = d.
Proof.
  induction 1 as [|part texts [t ->] _ IH]; [done|]. exact IH.
Qed.

Section Restoring.

Variable over : pixel -> pixel -> pixel.
Variable resample : Bitmap -> Q -> Q -> Q -> Q -> Z -> Z -> Z -> Z -> Z -> Z -> pixel.
Variable decodeImage : JS.str -> option Bitmap.

Hypothesis over_blank : forall p, over p blank = p.

Local Abbreviation step' := (step over resample decodeImage).
Local Abbreviation run' := (run over resample decodeImage).
Local Abbreviation handle' := (handle over resample decodeImage).
Local Abbreviation reachable' := (reachable over resample decodeImage).
Local Abbreviation settle' := (settle over resample decodeImage).
Local Abbreviation composite' := (composite over resample).

(** Only the two restore events touch [isProcessing] and [pending], and only
    a click on an enabled restore button issues a model call. *)
Lemma step_restore_cells (s : App) (e : Event) :
  (isProcessing (step' s e) = isProcessing s /\ pending (step' s e) = pending s /\
   forall rq, GenerateContent rq ∉ (handle' s e).2) \/
  (exists t, e = EvRestore t /\ restoreDisabled s = false) \/
  (exists reply p, e = EvModelReply reply /\ pending s = Some p).
Proof.
  assert (Hnil : forall rq, GenerateContent rq ∉ ([] : list Effect)).
  { intros rq H. by apply elem_of_nil in H. }
  unfold step. destruct e; simpl.
  - left. done.
  - left. destruct (image s); [|done]. unfold onMouseDown.
    destruct (isProcessing s) eqn:Hp; [done|].
    destruct (decide _); simpl; [|done].
    split; [done|]. split; [done|].
    intros rq [H|H]%elem_of_cons; [discriminate H|by apply elem_of_nil in H].
  - left. destruct (image s); [|done]. unfold onMouseMove.
    destruct (isDrawing s); [|done]. destruct (last _); [|done].
    destruct (store s !! _); done.
  - left. destruct (image s); [|done]. unfold onMouseUp.
    destruct (isDrawing s); [|done].
    destruct (pushToHistory_frame (setIsDrawing s false) (selections s) (replacements s))
      as (_ & _ & _ & _ & Hp & Hq & _).
    simpl. first [done | by rewrite Hp, Hq].
  - left. unfold updateReplacement. destruct (decide _); done.
  - left. unfold handleReplacementBlur.
    destruct (pushToHistory_frame s (selections s) (replacements s))
      as (_ & _ & _ & _ & Hp & Hq & _).
    destruct (JS.index _ _); [destruct (decide _)|]; simpl;
      first [done | by rewrite Hp, Hq].
  - left. done.
  - left. unfold undo. destruct (decide _).
    + destruct (JS.index _ _); done.
    + destruct (decide _); done.
  - left. unfold redo. destruct (decide _); [|done]. destruct (JS.index _ _); done.
  - destruct (restoreDisabled s) eqn:Hd; [left; done|].
    right. left. by exists targetSize.
  - destruct (pending s) as [p|] eqn:Hp; [|left; done].
    right. right. by exists reply, p.
Qed.

Lemma step_inFlight (s : App) (e : Event) : inFlight s -> inFlight (step' s e).
Proof.
  intros Hin. destruct (step_restore_cells s e)
    as [(Hp & Hq & _)|[(t & -> & Hd)|(reply & p & -> & Hpend)]].
  - unfold inFlight. by rewrite Hp, Hq.
  - unfold step. simpl. rewrite Hd. unfold handleRestore_start.
    destruct (image s); [|done]. destruct (decide _); [done|].
    destruct (decide _); [done|]. by intros _.
  - unfold step. simpl. rewrite Hpend. unfold handleRestore_settle.
    destruct (settle _ _ _ _ _ _); simpl; intros [? H]; discriminate H.
Qed.

(** X9.  A model call is issued only when no restore is in progress and none
    is suspended; the event that issues it issues exactly one, sets
    [isProcessing] and leaves a suspended restore behind.  So at most one
    call is in flight at any time. *)
Theorem model_call_only_when_idle (s : App) (e : Event) (rq : Request) :
  reachable' s ->
  GenerateContent rq ∈ (handle' s e).2 ->
  isProcessing s = false /\ pending s = None /\
  (handle' s e).2 = [GenerateContent rq] /\
  isProcessing (step' s e) = true /\ is_Some (pending (step' s e)).
Proof.
  intros Hreach Hcall.
  assert (Hin : inFlight s).
  { clear Hcall. induction Hreach as [|s e' _ IH]; [|by apply step_inFlight].
    intros [? H]. discriminate H. }
  destruct (step_restore_cells s e)
    as [(_ & _ & Hno)|[(t & -> & Hd)|(reply & p & -> & Hpend)]].
  - by apply Hno in Hcall.
  - assert (Hp : isProcessing s = false).
    { unfold restoreDisabled in Hd. by destruct (isProcessing s). }
    assert (Hq : pending s = None).
    { destruct (pending s) eqn:Hq; [|done].
      unfold inFlight in Hin. rewrite Hp in Hin. by discriminate Hin. }
    revert Hcall. unfold step. simpl. rewrite Hd. unfold handleRestore_start.
    destruct (image s); [|intros H; by apply elem_of_nil in H].
    destruct (decide _); [intros H; by apply elem_of_nil in H|].
    destruct (decide _).
    + intros [H|H]%elem_of_cons; [discriminate H|by apply elem_of_nil in H].
    + simpl. intros [H|H]%elem_of_cons; [|by apply elem_of_nil in H].
      injection H as ->. done.
  - revert Hcall. simpl. rewrite Hpend. unfold handleRestore_settle.
    destruct (settle _ _ _ _ _ _); simpl.
    + intros H. by apply elem_of_nil in H.
    + intros [H|H]%elem_of_cons; [discriminate H|by apply elem_of_nil in H].
    + intros H. by apply elem_of_nil in H.
Qed.

(** Once [isProcessing] is set and no restore is suspended, no event clears
    it. *)
Lemma run_stays_blocked (es : list Event) (s : App) :
  isProcessing s = true -> pending s = None ->
  isProcessing (run' s es) = true /\ pending (run' s es) = None.
Proof.
  revert s. induction es as [|e es IH]; intros s Hp Hq; [done|]. simpl.
  destruct (step_restore_cells s e)
    as [(Hp' & Hq' & _)|[(t & -> & Hd)|(reply & p & -> & Hpend)]].
  - apply IH; congruence.
  - unfold restoreDisabled in Hd. rewrite Hp in Hd. discriminate Hd.
  - congruence.
Qed.

(** X10.  When the reply carries a payload that the browser cannot load as
    an image, the restore neither completes nor fails: [isProcessing] stays
    set after the reply and after every later event, so no region can be
    begun and the restore buttons stay disabled. *)
Theorem undecodable_reply_blocks_forever
    (s : App) (p : Pending) (parts : list Part) (es : list Event) :
  pending s = Some p -> isProcessing s = true ->
  truthy (aiResultBase64 parts) = true ->
  decodeImage (default [] (aiResultBase64 parts)) = None ->
  let s' := run' s (EvModelReply (Response parts) :: es) in
  isProcessing s' = true /\ pending s' = None /\
  restoreDisabled s' = true /\
  (forall now pos, onMouseDown s' now pos = (s', [])) /\
  (handle' s (EvModelReply (Response parts))).2 = [].
Proof.
  intros Hpend Hp Ht Hd. cbv zeta.
  assert (Hs : settle' p (Response parts) (store s) = NeverLoads).
  { unfold settle. by rewrite Ht, Hd. }
  assert (H1 : step' s (EvModelReply (Response parts)) = setPending s None).
  { unfold step. simpl. rewrite Hpend. unfold handleRestore_settle. by rewrite Hs. }
  change (run' s (EvModelReply (Response parts) :: es))
    with (run' (step' s (EvModelReply (Response parts))) es).
  rewrite H1.
  destruct (run_stays_blocked es (setPending s None)) as [Hp' Hq']; [done..|].
  split; [exact Hp'|]. split; [exact Hq'|].
  split; [unfold restoreDisabled; by rewrite Hp'|]. split.
  - intros now pos. unfold onMouseDown. by rewrite Hp'.
  - simpl. rewrite Hpend. unfold handleRestore_settle. by rewrite Hs.
Qed.

(** X11.  Loading another image does not cancel a restore that awaits the
    model.  When the reply arrives the result image is set to the composite
    of the image captured at submission, with its dimensions, while the
    image shown is the new one. *)
Theorem reply_after_new_image_sets_stale_result
    (s : App) (p : Pending) (parts : list Part) (aiImg img : Bitmap) :
  pending s = Some p ->
  truthy (aiResultBase64 parts) = true ->
  decodeImage (default [] (aiResultBase64 parts)) = Some aiImg ->
  let s' := run' s [EvLoadImage img; EvModelReply (Response parts)] in
  let result := composite' (pd_image p) aiImg (deref (store s) (pd_filtered p)) in
  image s' = Some img /\
  resultImage s' = Some result /\
  bm_width result = bm_width (pd_image p) /\
  bm_height result = bm_height (pd_image p) /\
  selections s' = [] /\ history s' = [].
Proof.
  intros Hpend Ht Hd. cbv zeta.
  assert (Hs : settle' p (Response parts) (store s)
               = Composited (composite' (pd_image p) aiImg (deref (store s) (pd_filtered p)))).
  { unfold settle. by rewrite Ht, Hd. }
  assert (H2 : run' s [EvLoadImage img; EvModelReply (Response parts)]
               = setPending
                   (setIsProcessing
                      (setResultImage (loadImage s img)
                         (Some (composite' (pd_image p) aiImg
                                  (deref (store s) (pd_filtered p))))) false) None).
  { change (run' s [EvLoadImage img; EvModelReply (Response parts)])
      with (step' (loadImage s img) (EvModelReply (Response parts))).
    unfold step. cbn [handle].
    change (pending (loadImage s img)) with (pending s). rewrite Hpend.
    unfold handleRestore_settle.
    change (store (loadImage s img)) with (store s). by rewrite Hs. }
  rewrite H2. cbn [image resultImage selections history setPending setIsProcessing
                   setResultImage loadImage setHistoryIndex setHistory setReplacements
                   setSelections setImage].
  destruct (paste_all_size over resample (pd_image p) aiImg (deref (store s) (pd_filtered p))
              (drawImage3 over (createCanvas (bm_width (pd_image p)) (bm_height (pd_image p)))
                 (pd_image p) 0 0)) as [Hw Hh].
  unfold composite. rewrite Hw, Hh. done.
Qed.


End Restoring.

Lemma model_call_only_when_idle_witness :
  reachable opaqueOver nearestSample decodeOne zeroAreaWithText /\
  GenerateContent (buildRequest slide zeroAreaWithText [0%nat] Size2K)
    ∈ (handle opaqueOver nearestSample decodeOne zeroAreaWithText (EvRestore Size2K)).2 /\
  isProcessing zeroAreaWithText = false /\
  isProcessing (step opaqueOver nearestSample decodeOne zeroAreaWithText (EvRestore Size2K))
    = true.
Proof.
  assert (Hr : reachable opaqueOver nearestSample decodeOne zeroAreaWithText)
    by (apply run_reachable; constructor).
  assert (E : (handle opaqueOver nearestSample decodeOne zeroAreaWithText
                 (EvRestore Size2K)).2
              = [GenerateContent (buildRequest slide zeroAreaWithText [0%nat] Size2K)])
    by (vm_compute; reflexivity).
  assert (Hc : GenerateContent (buildRequest slide zeroAreaWithText [0%nat] Size2K)
               ∈ (handle opaqueOver nearestSample decodeOne zeroAreaWithText
                    (EvRestore Size2K)).2).
  { rewrite E. apply list_elem_of_here. }
  split; [exact Hr|]. split; [exact Hc|].
  destruct (model_call_only_when_idle opaqueOver nearestSample decodeOne
              zeroAreaWithText (EvRestore Size2K) _ Hr Hc) as (H1 & _ & _ & H2 & _).
  split; [exact H1|exact H2].
Defined.

Lemma undecodable_reply_blocks_forever_witness :
  pending awaitingModel = Some (mkPending slide [0%nat]) /\
  isProcessing awaitingModel = true /\
  truthy (aiResultBase64 [InlinePart (Some [63%N])]) = true /\
  decodeOne (default [] (aiResultBase64 [InlinePart (Some [63%N])])) = None /\
  isProcessing
    (run opaqueOver nearestSample decodeOne awaitingModel
       [EvModelReply (Response [InlinePart (Some [63%N])]);
        EvMouseDown 9 (1, 1); EvLoadImage generated; EvRestore Size1K]) = true.
Proof.
  assert (H1 : pending awaitingModel = Some (mkPending slide [0%nat]))
    by (vm_compute; reflexivity).
  assert (H2 : isProcessing awaitingModel = true) by (vm_compute; reflexivity).
  assert (H3 : truthy (aiResultBase64 [InlinePart (Some [63%N])]) = true) by reflexivity.
  assert (H4 : decodeOne (default [] (aiResultBase64 [InlinePart (Some [63%N])])) = None)
    by reflexivity.
  split; [exact H1|]. split; [exact H2|]. split; [exact H3|]. split; [exact H4|].
  exact (proj1 (undecodable_reply_blocks_forever opaqueOver nearestSample decodeOne
                  awaitingModel _ _
                  [EvMouseDown 9 (1, 1); EvLoadImage generated; EvRestore Size1K]
                  H1 H2 H3 H4)).
Defined.

Lemma reply_after_new_image_sets_stale_result_witness :
  pending awaitingModel = Some (mkPending slide [0%nat]) /\
  truthy (aiResultBase64 [InlinePart (Some [65; 66]%N)]) = true /\
  decodeOne (default [] (aiResultBase64 [InlinePart (Some [65; 66]%N)])) = Some generated /\
  image (run opaqueOver nearestSample decodeOne awaitingModel
           [EvLoadImage generated; EvModelReply (Response [InlinePart (Some [65; 66]%N)])])
    = Some generated /\
  exists result,
    resultImage (run opaqueOver nearestSample decodeOne awaitingModel
                   [EvLoadImage generated;
                    EvModelReply (Response [InlinePart (Some [65; 66]%N)])])
      = Some result /\
    bm_width result = 800.
Proof.
  assert (H1 : pending awaitingModel = Some (mkPending slide [0%nat]))
    by (vm_compute; reflexivity).
  assert (H2 : truthy (aiResultBase64 [InlinePart (Some [65; 66]%N)]) = true)
    by reflexivity.
  assert (H3 : decodeOne (default [] (aiResultBase64 [InlinePart (Some [65; 66]%N)]))
               = Some generated) by reflexivity.
  split; [exact H1|]. split; [exact H2|]. split; [exact H3|].
  destruct (reply_after_new_image_sets_stale_result opaqueOver nearestSample decodeOne
              awaitingModel _ _ generated generated H1 H2 H3) as (Hi & Hr & Hw & _).
  split; [exact Hi|]. eexists. split; [exact Hr|]. rewrite Hw. reflexivity.
Defined.


(** ** More on the compositor *)

Section CompositorFacts.

Variable over : pixel -> pixel -> pixel.
Variable resample : Bitmap -> Q -> Q -> Q -> Q -> Z -> Z -> Z -> Z -> Z -> Z -> pixel.

Local Abbreviation paste := (pasteRegion over resample).
Local Abbreviation composite' := (composite over resample).

Lemma pasteRegion_zero_area (originalImg aiImg cv : Bitmap) (r : SelectionArea) :
  sel_w r = 0 \/ sel_h r = 0 -> paste originalImg aiImg cv r = cv.
Proof.
  intros Hz. unfold pasteRegion, drawImage9.
  match goal with |- (if ?b then _ else _) = _ => assert (Hb : b = true) end.
  { apply orb_true_iff. destruct Hz as [-> | ->]; [left|right];
      apply Qeq_bool_iff, Qmult_0_l. }
  by rewrite Hb.
Qed.

(** X13.  A region of zero width or zero height, such as a click without a
    drag leaves behind, changes nothing in the composite: the result is the
    same bitmap as without that region. *)
Theorem zero_area_region_paints_nothing
    (originalImg aiImg : Bitmap) (before after : list SelectionArea) (r : SelectionArea) :
  sel_w r = 0 \/ sel_h r = 0 ->
  composite' originalImg aiImg (before ++ r :: after)
    = composite' originalImg aiImg (before ++ after).
Proof.
  intros Hz. unfold composite. rewrite !foldl_app. simpl.
  by rewrite pasteRegion_zero_area.
Qed.




End CompositorFacts.

Lemma zero_area_region_paints_nothing_witness :
  (sel_w (mkArea 2 100 100 0 0) = 0 \/ sel_h (mkArea 2 100 100 0 0) = 0) /\
  composite opaqueOver nearestSample slide generated
    ([mkArea 1 10 10 40 40] ++ mkArea 2 100 100 0 0 :: [])
  = composite opaqueOver nearestSample slide generated ([mkArea 1 10 10 40 40] ++ []).
Proof.
  assert (Hz : sel_w (mkArea 2 100 100 0 0) = 0 \/ sel_h (mkArea 2 100 100 0 0) = 0)
    by (left; reflexivity).
  split; [exact Hz|].
  exact (zero_area_region_paints_nothing opaqueOver nearestSample slide generated
           [mkArea 1 10 10 40 40] [] _ Hz).
Defined.

(** ** The response of the model *)

(** X15.  Only the first part with inline data counts: text parts before it
    are skipped and every part after it is ignored.  If that first inline
    part has no data, or empty data, the restore fails even when a later
    part carries an image. *)
Theorem first_inline_part_decides
    (texts rest : list Part) (d : option JS.str) :
  Forall (fun part => exists t, part = TextPart t) texts ->
  aiResultBase64 (texts ++ InlinePart d :: rest) = d /\
  (truthy d = false ->
   forall over resample decodeImage p st,
     settle over resample decodeImage p (Response (texts ++ InlinePart d :: rest)) st
       = Thrown).
Proof.
  intros Htexts. pose proof (aiResultBase64_skips_text texts rest d Htexts) as He.
  split; [exact He|].
  intros Hd over resample decodeImage p st. unfold settle. by rewrite He, Hd.
Qed.

Lemma first_inline_part_decides_witness :
  Forall (fun part => exists t, part = TextPart t) [TextPart [79; 75]%N] /\
  emptyThenImage = [TextPart [79; 75]%N] ++ InlinePart None :: [InlinePart (Some [65; 66]%N)] /\
  aiResultBase64 emptyThenImage = None /\
  settle opaqueOver nearestSample decodeOne (mkPending slide []) (Response emptyThenImage) []
    = Thrown.
Proof.
  assert (Ht : Forall (fun part => exists t, part = TextPart t) [TextPart [79; 75]%N]).
  { constructor; [by eexists|constructor]. }
  split; [exact Ht|]. split; [reflexivity|].
  destruct (first_inline_part_decides [TextPart [79; 75]%N]
              [InlinePart (Some [65; 66]%N)] None Ht) as [He Hs].
  split; [exact He|].
  exact (Hs eq_refl opaqueOver nearestSample decodeOne (mkPending slide []) []).
Defined.

(** ** Normalised coordinates *)




(** ** The API key *)

(** X17.  Saving a key is refused, with a notice and no change, when the key
    has fewer than 10 code units once trimmed; otherwise the trimmed key is
    stored and the key counts as selected.  At the next start, when AI
    Studio is absent or reports no selection, the stored key counts as
    selected only if it is longer than 10 code units: a key of exactly 10 is
    accepted when saved and not recognised afterwards.  After the change-key
    button nothing is stored and no start recognises a key unless AI Studio
    reports one. *)
Theorem saved_key_and_startup_thresholds (k : KeyState) (studio : Studio) :
  ((length (JS.trim (manualKey k)) < 10)%nat -> handleSaveManualKey k = (k, true)) /\
  ((10 <= length (JS.trim (manualKey k)))%nat ->
     let k' := (handleSaveManualKey k).1 in
     (handleSaveManualKey k).2 = false /\
     storedKey k' = Some (JS.trim (manualKey k)) /\
     isKeySelected k' = Some true /\
     (studio = NoStudio \/ studio = StudioAnswers false ->
        isKeySelected (onMount k' studio)
          = Some (bool_decide (10 < length (JS.trim (manualKey k)))%nat) /\
        manualKey (onMount k' studio) = JS.trim (manualKey k))) /\
  (studio <> StudioAnswers true ->
     isKeySelected (onMount (changeKey k) studio) = Some false /\
     storedKey (onMount (changeKey k) studio) = None).
Proof.
  split; [|split].
  - intros Hlt. unfold handleSaveManualKey. by rewrite decide_True.
  - intros Hge. cbv zeta. unfold handleSaveManualKey.
    rewrite decide_False by lia. simpl.
    split; [done|]. split; [done|]. split; [done|].
    intros Hstudio. unfold onMount, checkInitialKeyStatus.
    destruct (JS.trim (manualKey k)) as [|c key] eqn:Ht; [simpl in Hge; lia|].
    destruct Hstudio as [-> | ->]; simpl; done.
  - intros Hstudio. unfold onMount, checkInitialKeyStatus, changeKey.
    destruct studio as [|[|]|]; simpl; done.
Qed.

Lemma saved_key_and_startup_thresholds_witness :
  (10 <= length (JS.trim (manualKey tenUnitKey)))%nat /\
  JS.trim (manualKey tenUnitKey) = replicate 10 65%N /\
  isKeySelected (handleSaveManualKey tenUnitKey).1 = Some true /\
  isKeySelected (onMount (handleSaveManualKey tenUnitKey).1 NoStudio) = Some false.
Proof.
  assert (Et : JS.trim (manualKey tenUnitKey) = replicate 10 65%N)
    by (vm_compute; reflexivity).
  assert (Hge : (10 <= length (JS.trim (manualKey tenUnitKey)))%nat).
  { rewrite Et. simpl. lia. }
  split; [exact Hge|]. split; [exact Et|].
  destruct (proj1 (proj2 (saved_key_and_startup_thresholds tenUnitKey NoStudio)) Hge)
    as (_ & _ & Hsel & Hmount).
  split; [exact Hsel|].
  destruct (Hmount (or_introl eq_refl)) as [Hm _].
  rewrite Hm, Et. reflexivity.
Defined.

(** ** PDF pages *)

Lemma renderPdfPage_cells (d : Doc) (pdf : PdfDoc) (n : Z) :
  pdfDoc (renderPdfPage d pdf n) = pdfDoc d /\
  currentPageNum (renderPdfPage d pdf n) = currentPageNum d /\
  numPages (renderPdfPage d pdf n) = numPages d.
Proof. unfold renderPdfPage. by destruct (pdf_page pdf n). Qed.

(** X18.  A page change does nothing without a PDF or for a page number
    below 1 or above the page count.  Otherwise it moves to that page and,
    once the page is rendered, shows it with no region, no replacement text,
    no result image and an empty undo history.  Over every sequence of
    uploads and page changes the page count is that of the loaded PDF and
    the current page is 1 or lies between 1 and the page count. *)
Theorem page_change_in_range_and_resets :
  (forall (d : Doc) (n : Z),
     pdfDoc d = None \/ n < 1 \/ numPages d < n -> handlePageChange d n = d) /\
  (forall (d : Doc) (pdf : PdfDoc) (n : Z) (img : Bitmap),
     pdfDoc d = Some pdf -> 1 <= n <= numPages d -> pdf_page pdf n = Some img ->
     let d' := handlePageChange d n in
     currentPageNum d' = n /\ pdfDoc d' = Some pdf /\ numPages d' = numPages d /\
     image (app d') = Some img /\ resultImage (app d') = None /\
     selections (app d') = [] /\ replacements (app d') = ∅ /\
     history (app d') = [] /\ historyIndex (app d') = -1) /\
  (forall (es : list DocEvent) (pdf : PdfDoc),
     let d := foldl docStep initialDoc es in
     pdfDoc d = Some pdf ->
     numPages d = pdf_numPages pdf /\
     (currentPageNum d = 1 \/ 1 <= currentPageNum d <= numPages d)).
Proof.
  split; [|split].
  - intros d n H. unfold handlePageChange. destruct (pdfDoc d); [|done].
    destruct H as [H|H]; [done|]. by rewrite decide_True.
  - intros d pdf n img Hpdf Hn Himg. cbv zeta. unfold handlePageChange.
    rewrite Hpdf. rewrite decide_False by lia. unfold renderPdfPage. rewrite Himg.
    simpl. done.
  - intros es pdf. cbv zeta.
    assert (Hinv : forall d, (forall p, pdfDoc d = Some p ->
                                numPages d = pdf_numPages p /\
                                (currentPageNum d = 1 \/
                                 1 <= currentPageNum d <= numPages d)) ->
              forall e p, pdfDoc (docStep d e) = Some p ->
                numPages (docStep d e) = pdf_numPages p /\
                (currentPageNum (docStep d e) = 1 \/
                 1 <= currentPageNum (docStep d e) <= numPages (docStep d e))).
    { intros d Hd e p. destruct e as [pdf'|img|n]; simpl.
      - unfold handlePdfUpload.
        destruct (renderPdfPage_cells (mkDoc (app d) (Some pdf') 1 (pdf_numPages pdf')) pdf' 1)
          as (H1 & H2 & H3).
        rewrite H1, H2, H3. simpl. intros [= <-]. split; [done|by left].
      - discriminate.
      - unfold handlePageChange. destruct (pdfDoc d) as [q|] eqn:Hq; [|by rewrite Hq].
        destruct (decide _) as [Hout|Hin]; [rewrite Hq; apply Hd|].
        destruct (renderPdfPage_cells (mkDoc (app d) (Some q) n (numPages d)) q n)
          as (H1 & H2 & H3).
        rewrite H1, H2, H3. simpl. intros [= <-].
        split; [by apply Hd|]. right. lia. }
    revert pdf. induction es as [|e es IH] using rev_ind; [discriminate|].
    intros pdf. rewrite foldl_snoc. by apply Hinv.
Qed.

Lemma page_change_in_range_and_resets_witness :
  let d := handlePdfUpload initialDoc threePages in
  pdfDoc d = Some threePages /\ 1 <= 3 <= numPages d /\
  pdf_page threePages 3 = Some slide /\
  currentPageNum (handlePageChange d 3) = 3 /\
  handlePageChange (handlePageChange d 3) 4 = handlePageChange d 3.
Proof.
  cbv zeta.
  assert (H1 : pdfDoc (handlePdfUpload initialDoc threePages) = Some threePages)
    by reflexivity.
  assert (H2 : 1 <= 3 <= numPages (handlePdfUpload initialDoc threePages))
    by (simpl; lia).
  assert (H3 : pdf_page threePages 3 = Some slide) by reflexivity.
  split; [exact H1|]. split; [exact H2|]. split; [exact H3|].
  destruct (proj1 (proj2 page_change_in_range_and_resets)
              (handlePdfUpload initialDoc threePages) threePages 3 slide H1 H2 H3)
    as (Hc & _ & Hn & _).
  split; [exact Hc|].
  apply (proj1 page_change_in_range_and_resets). right. right.
  rewrite Hn. simpl. lia.
Defined.
